(** * Sensor API simulator (app.js): model and verified properties

    A shallow embedding of the request pipeline, the route handlers, the
    deferred action completions and the two periodic schedulers of
    [app.js], followed by the properties of the specification that were
    checked against them.

    Conventions of the embedding.
    - A JavaScript number is [number]: NaN, the two infinities, or a finite
      value carried as an exact rational.  Rounding of doubles is not
      modelled; in particular the id counter is an exact integer.
    - A value of [Math.random()] is an explicit argument (a draw); the
      properties that need it assume the draw lies in [0,1).
    - Sensor objects live in an append-only object store ([heap]); the
      [sensors] array and the closures of pending timers hold references
      into it, so that identity ([indexOf]) and mutation through an alias
      behave as in the source.
    - [setTimeout] callbacks are kept in [timers]; an event of the trace
      says which pending callback fires. *)

From Stdlib Require Import ZArith QArith String List Lia.
From stdpp Require Import base option list.

Local Open Scope string_scope.
Local Open Scope Z_scope.

Set Warnings "-register-all".

(* [++] is list concatenation throughout; strings use [String.append]. *)
Disable Notation "_ ++ _" : string_scope.

(** ** JavaScript values *)

Inductive number :=
| NaN
| PosInfinity
| NegInfinity
| Fin (q : Q).

Inductive value :=
| VUndefined
| VNull
| VBool (b : bool)
| VNum (n : number)
| VStr (s : string)
| VArr (items : list value)
| VObj (props : list (string * value)).

(** An integer as a number. *)
Definition num_of_Z (z : Z) : number := Fin (inject_Z z).
Coercion num_of_Z : Z >-> number.

(** [x < y] on exact rationals, as a boolean. *)
Definition Qltb (x y : Q) : bool := negb (Qle_bool y x).

(** [a === b] on numbers: NaN equals nothing, not even itself. *)
Definition number_eqb (a b : number) : bool :=
  match a, b with
  | PosInfinity, PosInfinity => true
  | NegInfinity, NegInfinity => true
  | Fin x, Fin y => Qeq_bool x y
  | _, _ => false
  end.

(** [!n] for a number [n]: zero and NaN are falsy. *)
Definition number_falsy (n : number) : bool :=
  match n with
  | NaN => true
  | Fin q => Qeq_bool q 0
  | _ => false
  end.

(** [Number.isNaN(v)]: no coercion, true only for the number NaN. *)
Definition Number_isNaN (v : value) : bool :=
  match v with
  | VNum NaN => true
  | _ => false
  end.

(** [Number.isInteger(v)]: no coercion, true only for finite integral numbers. *)
Definition Number_isInteger (v : value) : bool :=
  match v with
  | VNum (Fin q) => (Qnum q mod Zpos (Qden q) =? 0)%Z
  | _ => false
  end.

(** The parsed request body.  The JSON body parser (strict mode) yields an
    object or an array, and [{}] when the request carries no body. *)
Inductive Body :=
| BodyObject (props : list (string * value))
| BodyArray (items : list value).

(** Property read [o.key] on properties listed in source order; a repeated
    key keeps its last value, an absent one reads as [undefined]. *)
Definition get_prop (props : list (string * value)) (key : string) : value :=
  fold_left (fun acc kv => if String.eqb (fst kv) key then snd kv else acc)
            props VUndefined.

(** [req.body.frequency] *)
Definition body_frequency (b : Body) : value :=
  match b with
  | BodyObject props => get_prop props "frequency"
  | BodyArray _ => VUndefined
  end.

(** ** Responses *)

Inductive Payload :=
| Json (v : value)
| Text (s : string).

(** The response object: the status code set so far, the body handed to
    [send]/[json], whether the response has been sent, and whether the
    underlying connection has been destroyed. *)
Record Response := mkResponse {
  statusCode : Z;
  payload : option Payload;
  finished : bool;
  destroyed : bool
}.

Definition newResponse : Response :=
  {| statusCode := 200; payload := None; finished := false; destroyed := false |}.

(** [res.status(code)]: records the code, sends nothing. *)
Definition res_status (code : Z) (res : Response) : Response :=
  {| statusCode := code; payload := payload res;
     finished := finished res; destroyed := destroyed res |}.

(** [res.json(v)] *)
Definition res_json (v : value) (res : Response) : Response :=
  {| statusCode := statusCode res; payload := Some (Json v);
     finished := true; destroyed := destroyed res |}.

(** [res.send(text)] *)
Definition res_send (s : string) (res : Response) : Response :=
  {| statusCode := statusCode res; payload := Some (Text s);
     finished := true; destroyed := destroyed res |}.

(** [res.connection.destroy()] *)
Definition res_connection_destroy (res : Response) : Response :=
  {| statusCode := statusCode res; payload := payload res;
     finished := finished res; destroyed := true |}.

Definition error_json (msg : string) : value := VObj [("error", VStr msg)].

(** ** Configuration *)

Record Options := mkOptions {
  unreliable : bool;
  failSensors : bool
}.

Definition DELAY_REQ_MIN : Q := 0.
Definition DELAY_REQ_MAX : Q := 1000.
Definition DELAY_ACTION_MIN : Q := 2000.
Definition DELAY_ACTION_MAX : Q := 5000.

Definition ERROR_HANG_RATE (o : Options) : Q := if unreliable o then 0.05 else 0.
Definition ERROR_502_RATE (o : Options) : Q := if unreliable o then 0.05 else 0.
Definition ERROR_CLOSE_RATE (o : Options) : Q := if unreliable o then 0.05 else 0.
Definition ERROR_TEXT_ERROR (o : Options) : Q := if unreliable o then 0.05 else 0.

Definition FAILURE_RATE (o : Options) : Q := if failSensors o then 0.2 else 0.

Definition ERROR_TEXT_CONTENT : string :=
  "This site is inaccessible. Please try again.".

(** [getRequestDelay()], on the draw [r] of [Math.random()]. *)
Definition getRequestDelay (r : Q) : Q :=
  (DELAY_REQ_MIN + r * (DELAY_REQ_MAX - DELAY_REQ_MIN))%Q.

(** [getActionDelay()], on the draw [r].  The value is exact here; the
    code's double is the nearest one, which for draws next to 1 is the
    upper end 5000 itself, so bounds on it are stated closed. *)
Definition getActionDelay (r : Q) : Q :=
  (DELAY_ACTION_MIN + r * (DELAY_ACTION_MAX - DELAY_ACTION_MIN))%Q.

(** ** The fault-injection gate *)

(** [randomErrorsMiddleware(req, res, next)] on the draw [roll]: the
    response object as the middleware leaves it, and whether [next()] was
    called. *)
Definition randomErrorsMiddleware (o : Options) (roll : Q) (res : Response)
  : Response * bool :=
  let errorRoll := roll in
  let errorRoll := (errorRoll - ERROR_HANG_RATE o)%Q in
  if Qltb errorRoll 0 then (res, false) else
  let errorRoll := (errorRoll - ERROR_502_RATE o)%Q in
  if Qltb errorRoll 0 then (res_status 502 res, false) else
  let errorRoll := (errorRoll - ERROR_CLOSE_RATE o)%Q in
  if Qltb errorRoll 0 then (res_connection_destroy res, false) else
  let errorRoll := (errorRoll - ERROR_TEXT_ERROR o)%Q in
  if Qltb errorRoll 0 then (res_send ERROR_TEXT_CONTENT (res_status 500 res), false) else
  (res, true).

(** The four fault categories of the specification. *)
Inductive Category := Hang | BadGateway | AbruptClose | MalformedBody.

(** What the middleware does once a category is chosen ([None]: no fault,
    the request goes on to the handler). *)
Definition apply_category (c : option Category) (res : Response) : Response * bool :=
  match c with
  | Some Hang => (res, false)
  | Some BadGateway => (res_status 502 res, false)
  | Some AbruptClose => (res_connection_destroy res, false)
  | Some MalformedBody => (res_send ERROR_TEXT_CONTENT (res_status 500 res), false)
  | None => (res, true)
  end.

(** The selection rule in the words of the specification: the running value
    is decremented by each rate in turn and the first category that drives
    it negative is chosen. *)
Fixpoint select_category (rates : list (Category * Q)) (running : Q) : option Category :=
  match rates with
  | [] => None
  | (c, rate) :: rest =>
      let running' := (running - rate)%Q in
      if Qltb running' 0 then Some c else select_category rest running'
  end.

Definition configured_rates (o : Options) : list (Category * Q) :=
  [ (Hang, ERROR_HANG_RATE o); (BadGateway, ERROR_502_RATE o);
    (AbruptClose, ERROR_CLOSE_RATE o); (MalformedBody, ERROR_TEXT_ERROR o) ].

(** ** Sensors and the registry *)

Inductive Status :=
| STATUS_INITIALIZING
| STATUS_ACTIVE
| STATUS_FAILED
| STATUS_RESTARTING
| STATUS_TERMINATING.

Global Instance Status_eq_dec : EqDecision Status.
Proof. solve_decision. Defined.

(** The string each status constant stands for. *)
Definition status_name (s : Status) : string :=
  match s with
  | STATUS_INITIALIZING => "INITIALIZING"
  | STATUS_ACTIVE => "ACTIVE"
  | STATUS_FAILED => "FAILED"
  | STATUS_RESTARTING => "RESTARTING"
  | STATUS_TERMINATING => "TERMINATING"
  end.

Definition ACTION_RESTART : string := "restart".
Definition ACTION_TERMINATE : string := "terminate".

Record Sensor := mkSensor {
  id : Z;
  frequency : value;
  status : Status;
  measurement : value
}.

Definition set_status (s : Status) (x : Sensor) : Sensor :=
  {| id := id x; frequency := frequency x; status := s; measurement := measurement x |}.

Definition set_measurement (m : value) (x : Sensor) : Sensor :=
  {| id := id x; frequency := frequency x; status := status x; measurement := m |}.

(** The object [res.json(sensor)] serialises. *)
Definition sensor_json (x : Sensor) : value :=
  VObj [ ("id", VNum (id x));
         ("frequency", frequency x);
         ("status", VStr (status_name (status x)));
         ("measurement", measurement x) ].

(** A reference to a sensor object: its position in the object store. *)
Abbreviation ref := nat (only parsing).

(** The closures handed to [actionAfterDelay]. *)
Inductive Callback :=
| SetActive (r : ref)   (* () => sensor.status = STATUS_ACTIVE *)
| SpliceOut (r : ref).  (* () => sensors.splice(sensors.indexOf(sensor), 1) *)

Global Instance Callback_eq_dec : EqDecision Callback.
Proof. solve_decision. Defined.

Definition target (c : Callback) : ref :=
  match c with SetActive r | SpliceOut r => r end.

(** The module-level state of the process: the id counter, the object
    store, the [sensors] array and the callbacks waiting on a timer. *)
Record State := mkState {
  nextId : Z;
  heap : list Sensor;
  sensors : list ref;
  timers : list Callback
}.

Definition initial : State :=
  {| nextId := 1; heap := []; sensors := []; timers := [] |}.

(** [actionAfterDelay(callback)]: the callback is queued; it runs later. *)
Definition actionAfterDelay (c : Callback) (st : State) : State :=
  {| nextId := nextId st; heap := heap st; sensors := sensors st;
     timers := timers st ++ [c] |}.

(** Assignment to a field of the object behind [r]. *)
Definition update (r : ref) (f : Sensor -> Sensor) (st : State) : State :=
  {| nextId := nextId st; heap := alter f r (heap st); sensors := sensors st;
     timers := timers st |}.

(** [sensors.indexOf(sensor)]: position of the first occurrence, -1 if none. *)
Fixpoint indexOf (r : ref) (l : list ref) : Z :=
  match l with
  | [] => -1
  | x :: l' =>
      if decide (x = r) then 0
      else let i := indexOf r l' in if i <? 0 then -1 else i + 1
  end.

(** [l.splice(start, deleteCount)] with no inserted items: the array that
    remains.  A negative [start] counts from the end. *)
Definition splice {A} (start deleteCount : Z) (l : list A) : list A :=
  let len := Z.of_nat (length l) in
  let actualStart := if start <? 0 then Z.max (len + start) 0 else Z.min start len in
  let actualDelete := Z.min (Z.max deleteCount 0) (len - actualStart) in
  take (Z.to_nat actualStart) l ++ drop (Z.to_nat (actualStart + actualDelete)) l.

(** [sensors.find(s => s.id === sensorId)]: the first sensor of the array
    with that id, together with the reference it was reached through. *)
Fixpoint find_by_id (h : list Sensor) (sensorId : number) (l : list ref)
  : option (ref * Sensor) :=
  match l with
  | [] => None
  | r :: l' =>
      match h !! r with
      | Some x =>
          if number_eqb (id x) sensorId then Some (r, x)
          else find_by_id h sensorId l'
      | None => find_by_id h sensorId l'
      end
  end.

(** ** Route handlers *)

Definition getSensorIdsRoute (st : State) (res : Response) : Response :=
  res_json (VArr (omap (fun r => (fun x => VNum (id x)) <$> heap st !! r)
                       (sensors st))) res.

Definition createSensorRoute (st : State) (body : Body) (res : Response)
  : State * Response :=
  let frequency := body_frequency body in
  if Number_isNaN frequency then
    (st, res_json (error_json "missing frequency") (res_status 400 res))
  else if negb (Number_isInteger frequency) then
    (st, res_json (error_json "invalid frequency") (res_status 400 res))
  else
    let newSensor := {| id := nextId st; frequency := frequency;
                        status := STATUS_INITIALIZING; measurement := VNull |} in
    let r := length (heap st) in
    let st1 := {| nextId := nextId st + 1; heap := heap st ++ [newSensor];
                  sensors := sensors st ++ [r]; timers := timers st |} in
    (actionAfterDelay (SetActive r) st1, res_json (sensor_json newSensor) res).

Section Routes.

(** [Number(s)] on a route parameter: the conversion of the language,
    taken as given. *)
Variable ToNumber : string -> number.

Definition getSensorRoute (st : State) (idParam : string) (res : Response)
  : Response :=
  let sensorId := ToNumber idParam in
  if number_falsy sensorId then
    res_json (error_json "invalid id") (res_status 400 res)
  else
    match find_by_id (heap st) sensorId (sensors st) with
    | None => res_json (error_json "not found") (res_status 404 res)
    | Some (_, sensor) => res_json (sensor_json sensor) res
    end.

Definition changeSensorRoute (st : State) (idParam action : string) (res : Response)
  : State * Response :=
  let sensorId := ToNumber idParam in
  if number_falsy sensorId then
    (st, res_json (error_json "invalid id") (res_status 400 res))
  else
    match find_by_id (heap st) sensorId (sensors st) with
    | None => (st, res_json (error_json "not found") (res_status 404 res))
    | Some (r, sensor) =>
            if negb (bool_decide (status sensor ∈ [STATUS_ACTIVE; STATUS_FAILED])) then
              (st, res_json (error_json (String.append "sensor status is "
                                                        (status_name (status sensor))))
                            (res_status 400 res))
            else if String.eqb action ACTION_RESTART then
              (actionAfterDelay (SetActive r) (update r (set_status STATUS_RESTARTING) st),
               res_json (VObj [("ok", VBool true)]) res)
            else if String.eqb action ACTION_TERMINATE then
              (actionAfterDelay (SpliceOut r) (update r (set_status STATUS_TERMINATING) st),
               res_json (VObj [("ok", VBool true)]) res)
            else
              (st, res_json (error_json "invalid action") (res_status 400 res))
    end.

(** ** Deferred completions and periodic schedulers *)

(** What a queued closure does when its timer fires. *)
Definition run_callback (c : Callback) (st : State) : State :=
  match c with
  | SetActive r => update r (set_status STATUS_ACTIVE) st
  | SpliceOut r =>
      {| nextId := nextId st; heap := heap st;
         sensors := splice (indexOf r (sensors st)) 1 (sensors st);
         timers := timers st |}
  end.

(** The [k]-th pending timer fires: it leaves the queue and its closure runs. *)
Definition fire (k : nat) (st : State) : State :=
  match timers st !! k with
  | None => st
  | Some c =>
      run_callback c {| nextId := nextId st; heap := heap st; sensors := sensors st;
                        timers := delete k (timers st) |}
  end.

(** Successive values of [Math.random()] within one synchronous loop. *)
Definition draws := nat -> Q.
Definition next_draws (d : draws) : draws := fun n => d (S n).

(** The loop of [triggerIntermittentFailures] over the array, on the
    object store. *)
Fixpoint failures_loop (o : Options) (l : list ref) (d : draws) (h : list Sensor)
  : list Sensor :=
  match l with
  | [] => h
  | r :: l' =>
      match h !! r with
      | Some x =>
          if decide (status x = STATUS_ACTIVE) then
            if Qltb (d 0%nat) (FAILURE_RATE o)
            then failures_loop o l' (next_draws d) (alter (set_status STATUS_FAILED) r h)
            else failures_loop o l' (next_draws d) h
          else failures_loop o l' d h
      | None => failures_loop o l' d h
      end
  end.

Definition triggerIntermittentFailures (o : Options) (d : draws) (st : State) : State :=
  {| nextId := nextId st; heap := failures_loop o (sensors st) d (heap st);
     sensors := sensors st; timers := timers st |}.

(** [getMeasurement()] *)
Definition getMeasurement (r : Q) : value := VNum (Fin (r * 100)%Q).

(** The loop of [triggerMeasurements]. *)
Fixpoint measurements_loop (l : list ref) (d : draws) (h : list Sensor) : list Sensor :=
  match l with
  | [] => h
  | r :: l' =>
      match h !! r with
      | Some x =>
          if decide (status x = STATUS_ACTIVE) then
            measurements_loop l' (next_draws d)
                              (alter (set_measurement (getMeasurement (d 0%nat))) r h)
          else measurements_loop l' d h
      | None => measurements_loop l' d h
      end
  end.

Definition triggerMeasurements (d : draws) (st : State) : State :=
  {| nextId := nextId st; heap := measurements_loop (sensors st) d (heap st);
     sensors := sensors st; timers := timers st |}.

(** ** Route table and request processing *)

Inductive Method := GET | POST.

Record Request := mkRequest {
  method : Method;
  path : list string;   (* the path, split at its slashes *)
  body : Body
}.

Inductive Middleware := RequestDelay | RandomErrors.

Inductive Handler :=
| IndexRoute
| GetSensorIds
| CreateSensor
| GetSensor (idParam : string)
| ChangeSensor (idParam action : string)
| DebugRoute.

(** The registrations [app.get]/[app.post], in order: the middleware chain
    and the handler of the first route that matches. *)
Definition route (rq : Request) : option (list Middleware * Handler) :=
  match method rq, path rq with
  | GET, [] => Some ([], IndexRoute)
  | GET, ["sensor-ids"] => Some ([RequestDelay; RandomErrors], GetSensorIds)
  | POST, ["sensors"] => Some ([RequestDelay; RandomErrors], CreateSensor)
  | GET, ["sensors"; i] => Some ([RequestDelay; RandomErrors], GetSensor i)
  | POST, ["sensors"; i; a] => Some ([RequestDelay; RandomErrors], ChangeSensor i a)
  | GET, ["debug"] => Some ([], DebugRoute)
  | _, _ => None
  end.

(** What happened to a request, in order of occurrence. *)
Inductive Stage :=
| Waited (ms : Q)        (* [setTimeout(next, ms)] of the request delay *)
| Gate (passed : bool)   (* the fault gate ran; did it call [next()] *)
| Handled.               (* the route handler ran *)

Definition run_handler (h : Handler) (st : State) (rq : Request) (res : Response)
  : State * Response :=
  match h with
  | IndexRoute => (st, res_send "Greetings from space!" res)
  | GetSensorIds => (st, getSensorIdsRoute st res)
  | CreateSensor => createSensorRoute st (body rq) res
  | GetSensor i => (st, getSensorRoute st i res)
  | ChangeSensor i a => changeSensorRoute st i a res
  | DebugRoute =>
      (* the body is the pretty-printed JSON text of this array *)
      (st, res_json (VArr (omap (fun r => sensor_json <$> heap st !! r) (sensors st))) res)
  end.

Section Pipeline.

Variable o : Options.

(** The middleware chain, then the handler.  [delayDraw] and [roll] are the
    draws of the delay and of the gate. *)
Fixpoint run_chain (ms : list Middleware) (h : Handler) (delayDraw roll : Q)
    (st : State) (rq : Request) (res : Response) : State * Response * list Stage :=
  match ms with
  | [] =>
      let '(st', res') := run_handler h st rq res in (st', res', [Handled])
  | RequestDelay :: ms' =>
      let '(st', res', log) := run_chain ms' h delayDraw roll st rq res in
      (st', res', Waited (getRequestDelay delayDraw) :: log)
  | RandomErrors :: ms' =>
      let '(res1, next) := randomErrorsMiddleware o roll res in
      if next then
        let '(st', res', log) := run_chain ms' h delayDraw roll st rq res1 in
        (st', res', Gate true :: log)
      else (st, res1, [Gate false])
  end.

(** A request is served: [None] when no registered route matches. *)
Definition serve (rq : Request) (delayDraw roll : Q) (st : State)
  : option (State * Response * list Stage) :=
  match route rq with
  | None => None
  | Some (ms, h) => Some (run_chain ms h delayDraw roll st rq newResponse)
  end.

(** ** Traces *)

Inductive Event :=
| Serve (rq : Request) (delayDraw roll : Q)  (* a request runs its chain *)
| TimerFires (k : nat)                       (* a pending completion fires *)
| FailureTick (d : draws)                    (* [triggerIntermittentFailures] *)
| MeasurementTick (d : draws).               (* [triggerMeasurements] *)

Definition step (st : State) (e : Event) : State :=
  match e with
  | Serve rq delayDraw roll =>
      match serve rq delayDraw roll st with
      | Some (st', _, _) => st'
      | None => st
      end
  | TimerFires k => fire k st
  | FailureTick d => triggerIntermittentFailures o d st
  | MeasurementTick d => triggerMeasurements d st
  end.

Definition run (st : State) (evs : list Event) : State := fold_left step evs st.

End Pipeline.

End Routes.

(** ** A conversion for the examples *)

Fixpoint digits_value (acc : Z) (s : string) : option Z :=
  match s with
  | EmptyString => Some acc
  | String c s' =>
      let d := Z.of_N (Ascii.N_of_ascii c) - 48 in
      if (0 <=? d) && (d <=? 9) then digits_value (10 * acc + d) s' else None
  end.

(** [Number(s)] restricted to strings of decimal digits, where it is the
    number they denote (0 for the empty string).  Every other string is
    sent to NaN here; the examples below use digit strings only. *)
Definition digits_ToNumber (s : string) : number :=
  match digits_value 0 s with
  | Some z => Fin (inject_Z z)
  | None => NaN
  end.

(** ** Replies, as the client sees them *)

(** 200 [{ok: true}] *)
Definition ok_reply : Response := res_json (VObj [("ok", VBool true)]) newResponse.

(** [res.status(code).json({error: msg})] on a fresh response. *)
Definition error_reply (code : Z) (msg : string) : Response :=
  res_json (error_json msg) (res_status code newResponse).

(** The template [`sensor status is ${sensor.status}`]. *)
Definition status_error (s : Status) : string :=
  String.append "sensor status is " (status_name s).

(** [[STATUS_ACTIVE, STATUS_FAILED].includes(s)] *)
Definition accepts (s : Status) : bool :=
  bool_decide (s ∈ [STATUS_ACTIVE; STATUS_FAILED]).

(** The log of a request that was delayed before anything else happened
    to it. *)
Definition delayed_first (log : list Stage) : bool :=
  match log with
  | Waited _ :: _ => true
  | _ => false
  end.

(** ** Consistency of the process state *)

(** The completions waiting on a timer whose closure holds the sensor [r]. *)
Definition pending (r : ref) (st : State) : list Callback :=
  filter (fun c => target c = r) (timers st).

(** What the status of a sensor object says about the array and the
    timers: a sensor in a transitional status is in the array with exactly
    one completion pending, a settled one (ACTIVE, FAILED) is in the array
    with none pending, and a TERMINATING one whose completion has fired is
    out of the array for good. *)
Definition consistent (st : State) (r : ref) (s : Status) : Prop :=
  match s with
  | STATUS_INITIALIZING | STATUS_RESTARTING =>
      r ∈ sensors st /\ pending r st = [SetActive r]
  | STATUS_ACTIVE | STATUS_FAILED =>
      r ∈ sensors st /\ pending r st = []
  | STATUS_TERMINATING =>
      (r ∈ sensors st /\ pending r st = [SpliceOut r])
      \/ ((r ∉ sensors st) /\ pending r st = [])
  end.

Record Inv (st : State) : Prop := mkInv {
  inv_pos : 0 < nextId st;
  inv_order : forall i j x y,
    heap st !! i = Some x -> heap st !! j = Some y -> (i < j)%nat -> id x < id y;
  inv_next : forall i x, heap st !! i = Some x -> 0 < id x < nextId st;
  inv_sensors : forall r, r ∈ sensors st -> (r < length (heap st))%nat;
  inv_nodup : NoDup (sensors st);
  inv_timers : forall c, c ∈ timers st -> (target c < length (heap st))%nat;
  inv_status : forall r x, heap st !! r = Some x -> consistent st r (status x)
}.

(** The sensor [r] has been removed: terminated, out of the array, and
    with no completion left to run. *)
Definition Gone (r : ref) (st : State) : Prop :=
  (exists x, heap st !! r = Some x /\ status x = STATUS_TERMINATING)
  /\ (r ∉ sensors st) /\ (SpliceOut r ∉ timers st).

(** ** A scenario for the examples *)

Definition reliable : Options := {| unreliable := false; failSensors := false |}.

(** [POST /sensors] with the body [{"frequency": 2}]. *)
Definition create_request : Request :=
  {| method := POST; path := ["sensors"];
     body := BodyObject [("frequency", VNum (Fin 2))] |}.

(** [POST /sensors/1/<action>] *)
Definition action_request (action : string) : Request :=
  {| method := POST; path := ["sensors"; "1"; action]; body := BodyObject [] |}.

(** The first sensor, in a given status. *)
Definition sensor_one (s : Status) : Sensor :=
  {| id := 1; frequency := VNum (Fin 2); status := s; measurement := VNull |}.

(** One sensor created, its activation still pending. *)
Definition st_created : State :=
  run digits_ToNumber reliable initial [Serve create_request 0.5 0.5].

(** One sensor created and activated. *)
Definition st_active : State :=
  run digits_ToNumber reliable initial [Serve create_request 0.5 0.5; TimerFires 0].

(** Two sensors created and activated. *)
Definition st_two_active : State :=
  run digits_ToNumber reliable initial
      [Serve create_request 0.5 0.5; Serve create_request 0.5 0.5;
       TimerFires 0; TimerFires 0].

(** The second sensor, in a given status. *)
Definition sensor_two (s : Status) : Sensor :=
  {| id := 2; frequency := VNum (Fin 2); status := s; measurement := VNull |}.

(** Draws for two sensors: 0.5 for the first, 0.1 from then on. *)
Definition two_draws : draws := fun k => match k with O => 0.5%Q | _ => 0.1%Q end.

(** ** The registry's removal, as specified *)


(** ** Notions used by the further properties *)

(** The number of ACTIVE sensors among the references [l], read in the
    object store [h]: how many draws a scheduler loop has made when it is
    through [l]. *)
Fixpoint count_active (h : list Sensor) (l : list ref) : nat :=
  match l with
  | [] => 0%nat
  | r :: l' =>
      match h !! r with
      | Some x =>
          if decide (status x = STATUS_ACTIVE) then S (count_active h l')
          else count_active h l'
      | None => count_active h l'
      end
  end.

(** The ids of the sensors of the array, in array order: the list that
    [sensors.map(s => s.id)] builds. *)
Definition registered_ids (st : State) : list Z :=
  omap (fun r => id <$> heap st !! r) (sensors st).

(** The array lists the sensors in the order of their creation. *)
Definition in_creation_order (st : State) : Prop :=
  forall i j a b,
    sensors st !! i = Some a -> sensors st !! j = Some b -> (i < j)%nat -> (a < b)%nat.

(** Ids are handed out without gaps: the counter is one more than the
    number of sensor objects created, and the object created [i]-th (from
    0) carries the id [i + 1]. *)
Definition Dense (st : State) : Prop :=
  nextId st = Z.of_nat (length (heap st)) + 1
  /\ forall i x, heap st !! i = Some x -> id x = Z.of_nat i + 1.

(** The replies a handler can give, as the code writes them: a flag
    for each of the status codes in use. *)
Definition handler_code (c : Z) : bool := (c =? 200) || (c =? 400) || (c =? 404).

(** * Verified properties *)

(** ** Arithmetic helpers *)

Lemma Qltb_lt (x y : Q) : Qltb x y = true <-> (x < y)%Q.
Proof.
  unfold Qltb. rewrite negb_true_iff, <- not_true_iff_false, Qle_bool_iff.
  split; [apply Qnot_le_lt | apply Qlt_not_le].
Qed.

Lemma Qltb_ge (x y : Q) : Qltb x y = false <-> (y <= x)%Q.
Proof.
  unfold Qltb. rewrite negb_false_iff. apply Qle_bool_iff.
Qed.

Lemma Qltb_minus_zero (x : Q) : (0 <= x)%Q -> Qltb (x - 0) 0 = false.
Proof.
  intros Hx. apply Qltb_ge. unfold Qminus, Qopp; simpl.
  rewrite Qplus_0_r. exact Hx.
Qed.

(** ** The fault-injection gate *)

(** The middleware is the specification's rule run on the four configured
    rates in their fixed order. *)
Lemma gate_is_selection (o : Options) (roll : Q) (res : Response) :
  randomErrorsMiddleware o roll res
  = apply_category (select_category (configured_rates o) roll) res.
Proof.
  unfold randomErrorsMiddleware, configured_rates; simpl.
  repeat (match goal with |- context [Qltb ?a ?b] => destruct (Qltb a b) end;
          simpl; try reflexivity).
Qed.

Lemma reliable_rates_zero (o : Options) :
  unreliable o = false ->
  configured_rates o = [(Hang, 0%Q); (BadGateway, 0%Q); (AbruptClose, 0%Q); (MalformedBody, 0%Q)].
Proof.
  intros H. unfold configured_rates, ERROR_HANG_RATE, ERROR_502_RATE,
    ERROR_CLOSE_RATE, ERROR_TEXT_ERROR. rewrite H. reflexivity.
Qed.

Lemma select_all_zero (rates : list (Category * Q)) (x : Q) :
  Forall (fun cr => snd cr = 0%Q) rates -> (0 <= x)%Q ->
  select_category rates x = None.
Proof.
  intros Hall. revert x.
  induction Hall as [| [c rate] rest Hrate _ IH]; intros x Hx; [reflexivity |].
  simpl in Hrate; subst rate. simpl.
  rewrite Qltb_minus_zero by exact Hx. apply IH.
  unfold Qminus, Qopp; simpl. rewrite Qplus_0_r. exact Hx.
Qed.

(** C1.  The gate makes one draw and subtracts from it, in the fixed order
    hang, bad gateway, close, malformed body, the configured rates; the
    first category whose subtraction makes the running value negative is
    applied, and if none does, [next()] is called on the unchanged
    response.  In reliable mode the four rates are 0 and every draw of
    [0,1) passes. *)
Theorem gate_selection (o : Options) (roll : Q) (res : Response) :
  configured_rates o
    = [ (Hang, ERROR_HANG_RATE o); (BadGateway, ERROR_502_RATE o);
        (AbruptClose, ERROR_CLOSE_RATE o); (MalformedBody, ERROR_TEXT_ERROR o) ]
  /\ randomErrorsMiddleware o roll res
     = apply_category (select_category (configured_rates o) roll) res
  /\ (select_category (configured_rates o) roll = None ->
      randomErrorsMiddleware o roll res = (res, true))
  /\ (unreliable o = false ->
      Forall (fun cr => snd cr = 0%Q) (configured_rates o)
      /\ ((0 <= roll)%Q -> randomErrorsMiddleware o roll res = (res, true))).
Proof.
  split; [reflexivity |]. split; [apply gate_is_selection |].
  split.
  - intros Hnone. rewrite gate_is_selection, Hnone. reflexivity.
  - intros Hrel.
    assert (Hz : Forall (fun cr => snd cr = 0%Q) (configured_rates o)).
    { rewrite reliable_rates_zero by exact Hrel.
      repeat constructor. }
    split; [exact Hz |].
    intros Hroll. rewrite gate_is_selection.
    rewrite (select_all_zero _ _ Hz Hroll). reflexivity.
Qed.

Lemma gate_selection_witness :
  randomErrorsMiddleware (mkOptions false false) 0.5 newResponse = (newResponse, true).
Proof.
  apply (gate_selection (mkOptions false false) 0.5 newResponse).
  - reflexivity.
  - unfold Qle; simpl; lia.
Defined.

Lemma Qltb_ext (a b c d : Q) : ((a < b)%Q <-> (c < d)%Q) -> Qltb a b = Qltb c d.
Proof.
  intros H. destruct (Qltb c d) eqn:E.
  - apply Qltb_lt. apply H. apply Qltb_lt. exact E.
  - apply not_true_iff_false. intros E'. apply Qltb_lt in E'. apply H in E'.
    apply Qltb_lt in E'. congruence.
Qed.

(** Comparisons between concrete rationals and one unknown, by clearing
    denominators. *)
Ltac q_order :=
  unfold Qlt, Qle, Qminus, Qplus, Qopp in *; simpl in *; lia.

(** The cumulative reading of the rule in unreliable mode: the draw falls
    in one of four bands of width 0.05, or above them. *)
Lemma gate_bands (roll : Q) :
  select_category (configured_rates (mkOptions true false)) roll
  = if Qltb roll 0.05 then Some Hang
    else if Qltb roll 0.10 then Some BadGateway
    else if Qltb roll 0.15 then Some AbruptClose
    else if Qltb roll 0.20 then Some MalformedBody
    else None.
Proof.
  unfold configured_rates, ERROR_HANG_RATE, ERROR_502_RATE, ERROR_CLOSE_RATE,
    ERROR_TEXT_ERROR; simpl.
  rewrite (Qltb_ext (roll - 0.05) 0 roll 0.05) by (split; intro; q_order).
  rewrite (Qltb_ext (roll - 0.05 - 0.05) 0 roll 0.10) by (split; intro; q_order).
  rewrite (Qltb_ext (roll - 0.05 - 0.05 - 0.05) 0 roll 0.15) by (split; intro; q_order).
  rewrite (Qltb_ext (roll - 0.05 - 0.05 - 0.05 - 0.05) 0 roll 0.20)
    by (split; intro; q_order).
  reflexivity.
Qed.

(** Whenever the bad-gateway category is selected, the middleware records
    the status code on the response object and returns: nothing is sent. *)
Lemma bad_gateway_branch (o : Options) (roll : Q) (res : Response) :
  select_category (configured_rates o) roll = Some BadGateway ->
  randomErrorsMiddleware o roll res = (res_status 502 res, false)
  /\ finished (res_status 502 res) = finished res.
Proof.
  intros H. rewrite gate_is_selection, H. split; reflexivity.
Qed.

(** The sibling branch of the malformed body does send its response. *)
Lemma malformed_body_branch (o : Options) (roll : Q) (res : Response) :
  select_category (configured_rates o) roll = Some MalformedBody ->
  let res' := fst (randomErrorsMiddleware o roll res) in
  statusCode res' = 500 /\ payload res' = Some (Text ERROR_TEXT_CONTENT)
  /\ finished res' = true.
Proof.
  intros H. rewrite gate_is_selection, H. repeat split.
Qed.

(** C7, at the draw 0.07 in unreliable mode: the bad-gateway category is
    selected, the status code 502 is recorded, and the response is left
    unsent, with no body, on an open connection; the handler is not run. *)
Theorem bad_gateway_not_sent :
  select_category (configured_rates (mkOptions true false)) 0.07 = Some BadGateway
  /\ randomErrorsMiddleware (mkOptions true false) 0.07 newResponse
     = ({| statusCode := 502; payload := None; finished := false; destroyed := false |},
        false).
Proof. split; reflexivity. Qed.

(** ** Creating a sensor *)

(** A frequency that is neither the number NaN nor an integer gets the
    "invalid frequency" reply, and nothing is created. *)
Lemma create_not_integer (st : State) (b : Body) (res : Response) :
  Number_isNaN (body_frequency b) = false ->
  Number_isInteger (body_frequency b) = false ->
  createSensorRoute st b res
  = (st, res_json (error_json "invalid frequency") (res_status 400 res)).
Proof.
  intros Hnan Hint. unfold createSensorRoute. rewrite Hnan, Hint. reflexivity.
Qed.

Lemma create_integer (st : State) (b : Body) (res : Response) :
  Number_isInteger (body_frequency b) = true ->
  let newSensor := {| id := nextId st; frequency := body_frequency b;
                      status := STATUS_INITIALIZING; measurement := VNull |} in
  createSensorRoute st b res
  = ({| nextId := nextId st + 1; heap := heap st ++ [newSensor];
        sensors := sensors st ++ [length (heap st)];
        timers := timers st ++ [SetActive (length (heap st))] |},
     res_json (sensor_json newSensor) res).
Proof.
  intros Hint. unfold createSensorRoute.
  destruct (body_frequency b) as [| | | [| | |q] | | |]; try discriminate Hint.
  simpl in *. rewrite Hint. reflexivity.
Qed.

(** A property that is absent from the body reads as [undefined]. *)
Lemma get_prop_absent (props : list (string * value)) (key : string) :
  Forall (fun kv => fst kv <> key) props -> get_prop props key = VUndefined.
Proof.
  unfold get_prop. generalize VUndefined as acc.
  induction props as [| [k v] props IH]; intros acc Hall; [reflexivity |].
  inversion Hall as [| ? ? Hk Hrest]; subst. simpl in *.
  destruct (String.eqb_spec k key) as [E | _]; [contradiction |].
  apply IH. exact Hrest.
Qed.

(** With no [frequency] in the body the reply is "invalid frequency". *)
Lemma create_missing (st : State) (props : list (string * value)) (res : Response) :
  Forall (fun kv => fst kv <> "frequency") props ->
  createSensorRoute st (BodyObject props) res
  = (st, res_json (error_json "invalid frequency") (res_status 400 res)).
Proof.
  intros Habs. apply create_not_integer; simpl; rewrite get_prop_absent by exact Habs;
    reflexivity.
Qed.

(** The "missing frequency" reply needs a frequency that is the number
    NaN, which no JSON text denotes. *)
Lemma create_missing_reply_iff (st : State) (b : Body) (res : Response) :
  snd (createSensorRoute st b res)
  = res_json (error_json "missing frequency") (res_status 400 res)
  <-> body_frequency b = VNum NaN.
Proof.
  unfold createSensorRoute.
  destruct (body_frequency b) as [| | | [| | |q] | | |]; simpl;
    try (split; [discriminate | discriminate]).
  - split; reflexivity.
  - destruct (Qnum q mod Z.pos (Qden q) =? 0); simpl; split; discriminate.
Qed.

(** C2, at the body [{}]: the frequency is missing, and the reply is
    400 with the error "invalid frequency", not "missing frequency". *)
Theorem create_empty_body (st : State) :
  createSensorRoute st (BodyObject []) newResponse
  = (st, {| statusCode := 400;
            payload := Some (Json (VObj [("error", VStr "invalid frequency")]));
            finished := true; destroyed := false |}).
Proof. reflexivity. Qed.

(** The documented examples with a frequency present. *)
Example create_two_and_a_half :
  snd (createSensorRoute initial (BodyObject [("frequency", VNum (Fin 2.5))]) newResponse)
  = {| statusCode := 400;
       payload := Some (Json (VObj [("error", VStr "invalid frequency")]));
       finished := true; destroyed := false |}.
Proof. reflexivity. Qed.

Example create_two :
  snd (createSensorRoute initial (BodyObject [("frequency", VNum (Fin 2))]) newResponse)
  = {| statusCode := 200;
       payload := Some (Json (VObj [ ("id", VNum 1); ("frequency", VNum (Fin 2));
                                     ("status", VStr "INITIALIZING");
                                     ("measurement", VNull) ]));
       finished := true; destroyed := false |}.
Proof. reflexivity. Qed.

(** ** Acting on a sensor *)

Section ChangeSensor.

Variable ToNumber : string -> number.

Lemma accepts_spec (s : Status) :
  accepts s = true <-> s = STATUS_ACTIVE \/ s = STATUS_FAILED.
Proof.
  unfold accepts. rewrite bool_decide_eq_true.
  repeat rewrite elem_of_cons. rewrite elem_of_nil. tauto.
Qed.

Lemma change_invalid_id (st : State) (idParam action : string) :
  number_falsy (ToNumber idParam) = true ->
  changeSensorRoute ToNumber st idParam action newResponse
  = (st, error_reply 400 "invalid id").
Proof. intros H. unfold changeSensorRoute. rewrite H. reflexivity. Qed.

Lemma change_not_found (st : State) (idParam action : string) :
  number_falsy (ToNumber idParam) = false ->
  find_by_id (heap st) (ToNumber idParam) (sensors st) = None ->
  changeSensorRoute ToNumber st idParam action newResponse
  = (st, error_reply 404 "not found").
Proof. intros H1 H2. unfold changeSensorRoute. rewrite H1, H2. reflexivity. Qed.

Lemma change_bad_status (st : State) (idParam action : string) (r : ref) (x : Sensor) :
  number_falsy (ToNumber idParam) = false ->
  find_by_id (heap st) (ToNumber idParam) (sensors st) = Some (r, x) ->
  accepts (status x) = false ->
  changeSensorRoute ToNumber st idParam action newResponse
  = (st, error_reply 400 (status_error (status x))).
Proof.
  intros H1 H2 H3. unfold changeSensorRoute. rewrite H1, H2.
  unfold accepts in H3. rewrite H3. reflexivity.
Qed.

Lemma change_restart (st : State) (idParam : string) (r : ref) (x : Sensor) :
  number_falsy (ToNumber idParam) = false ->
  find_by_id (heap st) (ToNumber idParam) (sensors st) = Some (r, x) ->
  accepts (status x) = true ->
  changeSensorRoute ToNumber st idParam ACTION_RESTART newResponse
  = (actionAfterDelay (SetActive r) (update r (set_status STATUS_RESTARTING) st),
     ok_reply).
Proof.
  intros H1 H2 H3. unfold changeSensorRoute. rewrite H1, H2.
  unfold accepts in H3. rewrite H3. reflexivity.
Qed.

Lemma change_terminate (st : State) (idParam : string) (r : ref) (x : Sensor) :
  number_falsy (ToNumber idParam) = false ->
  find_by_id (heap st) (ToNumber idParam) (sensors st) = Some (r, x) ->
  accepts (status x) = true ->
  changeSensorRoute ToNumber st idParam ACTION_TERMINATE newResponse
  = (actionAfterDelay (SpliceOut r) (update r (set_status STATUS_TERMINATING) st),
     ok_reply).
Proof.
  intros H1 H2 H3. unfold changeSensorRoute. rewrite H1, H2.
  unfold accepts in H3. rewrite H3. reflexivity.
Qed.

Lemma change_unknown_action (st : State) (idParam action : string) (r : ref) (x : Sensor) :
  number_falsy (ToNumber idParam) = false ->
  find_by_id (heap st) (ToNumber idParam) (sensors st) = Some (r, x) ->
  accepts (status x) = true ->
  action <> ACTION_RESTART -> action <> ACTION_TERMINATE ->
  changeSensorRoute ToNumber st idParam action newResponse
  = (st, error_reply 400 "invalid action").
Proof.
  intros H1 H2 H3 Hr Ht. unfold changeSensorRoute. rewrite H1, H2.
  unfold accepts in H3. rewrite H3. simpl.
  destruct (String.eqb_spec action ACTION_RESTART); [contradiction |].
  destruct (String.eqb_spec action ACTION_TERMINATE); [contradiction |].
  reflexivity.
Qed.

(** C3.  For a request that addresses an existing sensor, the reply is
    200 [{ok: true}] exactly when the sensor's status is ACTIVE or FAILED
    and the action is restart or terminate; with any other status the reply
    is a 400 whose message names the status, and nothing changes; with an
    unrecognised action the reply is a 400 error, and nothing changes. *)
Theorem change_accepted_only_active_or_failed
    (st : State) (idParam action : string) (r : ref) (x : Sensor) :
  number_falsy (ToNumber idParam) = false ->
  find_by_id (heap st) (ToNumber idParam) (sensors st) = Some (r, x) ->
  let out := changeSensorRoute ToNumber st idParam action newResponse in
  (snd out = ok_reply <->
     (status x = STATUS_ACTIVE \/ status x = STATUS_FAILED)
     /\ (action = ACTION_RESTART \/ action = ACTION_TERMINATE))
  /\ (snd out = ok_reply -> statusCode (snd out) = 200)
  /\ (status x <> STATUS_ACTIVE -> status x <> STATUS_FAILED ->
      fst out = st /\ snd out = error_reply 400 (status_error (status x))
      /\ statusCode (snd out) = 400)
  /\ (action <> ACTION_RESTART -> action <> ACTION_TERMINATE ->
      fst out = st /\ statusCode (snd out) = 400
      /\ exists msg, payload (snd out) = Some (Json (error_json msg))).
Proof.
  intros Hid Hfind out. subst out.
  assert (Hdiff : forall msg, error_reply 400 msg <> ok_reply) by discriminate.
  destruct (accepts (status x)) eqn:Hacc.
  - pose proof (proj1 (accepts_spec _) Hacc) as Hst.
    destruct (String.eqb_spec action ACTION_RESTART) as [-> | Hr];
      [| destruct (String.eqb_spec action ACTION_TERMINATE) as [-> | Ht]].
    + rewrite (change_restart _ _ _ _ Hid Hfind Hacc). simpl.
      repeat split; intros; try tauto; try congruence; try (exfalso; tauto).
    + rewrite (change_terminate _ _ _ _ Hid Hfind Hacc). simpl.
      repeat split; intros; try tauto; try congruence; try (exfalso; tauto).
    + rewrite (change_unknown_action _ _ _ _ _ Hid Hfind Hacc Hr Ht). simpl.
      repeat split; intros; try tauto; try congruence; try (exfalso; tauto);
        try (exfalso; eapply Hdiff; eassumption).
      eexists; reflexivity.
  - rewrite (change_bad_status _ _ action _ _ Hid Hfind Hacc). simpl.
    assert (Hno : ~ (status x = STATUS_ACTIVE \/ status x = STATUS_FAILED)).
    { intros H. apply accepts_spec in H. congruence. }
    repeat split; intros; try tauto; try congruence;
      try (exfalso; eapply Hdiff; eassumption).
    eexists; reflexivity.
Qed.

(** C10.  The checks of the action handler run in the order id validity,
    sensor existence, current status, action name: each reply below is
    given whatever the later checks would find.  So an unrecognised action
    on an existing sensor that is neither ACTIVE nor FAILED gets the 400
    that names the status, not "invalid action". *)
Theorem change_check_order (st : State) (idParam action : string) :
  (number_falsy (ToNumber idParam) = true ->
   changeSensorRoute ToNumber st idParam action newResponse
   = (st, error_reply 400 "invalid id"))
  /\ (number_falsy (ToNumber idParam) = false ->
      find_by_id (heap st) (ToNumber idParam) (sensors st) = None ->
      changeSensorRoute ToNumber st idParam action newResponse
      = (st, error_reply 404 "not found"))
  /\ (forall r x,
      number_falsy (ToNumber idParam) = false ->
      find_by_id (heap st) (ToNumber idParam) (sensors st) = Some (r, x) ->
      status x <> STATUS_ACTIVE -> status x <> STATUS_FAILED ->
      changeSensorRoute ToNumber st idParam action newResponse
      = (st, error_reply 400 (status_error (status x)))
      /\ error_reply 400 (status_error (status x)) <> error_reply 400 "invalid action")
  /\ (forall r x,
      number_falsy (ToNumber idParam) = false ->
      find_by_id (heap st) (ToNumber idParam) (sensors st) = Some (r, x) ->
      status x = STATUS_ACTIVE \/ status x = STATUS_FAILED ->
      action <> ACTION_RESTART -> action <> ACTION_TERMINATE ->
      changeSensorRoute ToNumber st idParam action newResponse
      = (st, error_reply 400 "invalid action")).
Proof.
  split; [apply change_invalid_id |].
  split; [apply change_not_found |].
  split.
  - intros r x Hid Hfind Ha Hf. split.
    + apply (change_bad_status _ _ _ r x Hid Hfind).
      destruct (accepts (status x)) eqn:E; [| reflexivity].
      apply accepts_spec in E. tauto.
    + destruct (status x); discriminate.
  - intros r x Hid Hfind Hst Hr Ht.
    apply (change_unknown_action _ _ _ r x Hid Hfind); auto.
    apply accepts_spec. exact Hst.
Qed.

End ChangeSensor.

(** The scenario states, evaluated. *)
Example st_created_eq :
  st_created = {| nextId := 2; heap := [sensor_one STATUS_INITIALIZING];
                  sensors := [0%nat]; timers := [SetActive 0%nat] |}.
Proof. reflexivity. Qed.

Example st_active_eq :
  st_active = {| nextId := 2; heap := [sensor_one STATUS_ACTIVE];
                 sensors := [0%nat]; timers := [] |}.
Proof. reflexivity. Qed.

(** A restart of the ACTIVE sensor 1 is accepted. *)
Lemma change_accepted_witness :
  snd (changeSensorRoute digits_ToNumber st_active "1" "restart" newResponse) = ok_reply.
Proof.
  apply (proj1 (change_accepted_only_active_or_failed digits_ToNumber st_active
                  "1" "restart" 0%nat (sensor_one STATUS_ACTIVE) eq_refl eq_refl)).
  split; left; reflexivity.
Defined.

(** An unknown action on the INITIALIZING sensor 1 is answered with the
    status, not with "invalid action". *)
Lemma change_check_order_witness :
  changeSensorRoute digits_ToNumber st_created "1" "explode" newResponse
  = (st_created, error_reply 400 "sensor status is INITIALIZING").
Proof.
  destruct (change_check_order digits_ToNumber st_created "1" "explode")
    as (_ & _ & H & _).
  apply (H 0%nat (sensor_one STATUS_INITIALIZING)); [reflexivity | reflexivity | |];
    discriminate.
Defined.

(** ** The periodic schedulers *)

Lemma measurements_loop_length (l : list ref) (d : draws) (h : list Sensor) :
  length (measurements_loop l d h) = length h.
Proof.
  revert d h. induction l as [| a l IH]; intros d h; simpl; [reflexivity |].
  destruct (h !! a) as [y |]; [| apply IH].
  destruct (decide (status y = STATUS_ACTIVE)); rewrite IH;
    [apply length_alter | reflexivity].
Qed.

(** After the loop every object is either untouched or, if it was ACTIVE
    and in the array, carries a measurement drawn during the loop; ACTIVE
    objects of the array are always of the second kind. *)
Lemma measurements_loop_spec (l : list ref) :
  forall (d : draws) (h : list Sensor) (r : ref) (x : Sensor),
    h !! r = Some x ->
    exists x', measurements_loop l d h !! r = Some x'
      /\ (x' = x \/
          (status x = STATUS_ACTIVE /\ r ∈ l
           /\ exists k, x' = set_measurement (getMeasurement (d k)) x))
      /\ (status x = STATUS_ACTIVE -> r ∈ l ->
          exists k, x' = set_measurement (getMeasurement (d k)) x).
Proof.
  induction l as [| a l IH]; intros d h r x Hr; simpl.
  - exists x. split; [exact Hr |]. split; [left; reflexivity |].
    intros _ Hin. apply elem_of_nil in Hin. contradiction.
  - assert (Hskip : forall d', a <> r \/ status x <> STATUS_ACTIVE ->
        exists x', measurements_loop l d' h !! r = Some x'
          /\ (x' = x \/ (status x = STATUS_ACTIVE /\ r ∈ a :: l
                /\ exists k, x' = set_measurement (getMeasurement (d' k)) x))
          /\ (status x = STATUS_ACTIVE -> r ∈ a :: l ->
              exists k, x' = set_measurement (getMeasurement (d' k)) x)).
    { intros d' Hne. destruct (IH d' h r x Hr) as (x' & Hx' & Hor & Hmust).
      exists x'. split; [exact Hx' |]. split.
      - destruct Hor as [-> | (Hact & Hin & k & ->)]; [left; reflexivity |].
        right. split; [exact Hact |]. split; [apply list_elem_of_further, Hin |].
        exists k; reflexivity.
      - intros Hact Hin. apply elem_of_cons in Hin as [-> | Hin]; [| auto].
        destruct Hne as [Hne | Hne]; contradiction. }
    destruct (h !! a) as [y |] eqn:Ha.
    2:{ apply Hskip. left. intros ->. congruence. }
    destruct (decide (status y = STATUS_ACTIVE)) as [Hy | Hy].
    2:{ apply Hskip. destruct (decide (a = r)) as [-> | Hne]; [| left; exact Hne].
        right. congruence. }
    destruct (decide (a = r)) as [-> | Hne].
    + assert (y = x) by congruence. subst y.
      set (x1 := set_measurement (getMeasurement (d 0%nat)) x).
      assert (H1 : alter (set_measurement (getMeasurement (d 0%nat))) r h !! r = Some x1).
      { rewrite list_lookup_alter_eq, Hr. reflexivity. }
      destruct (IH (next_draws d) _ r x1 H1) as (x' & Hx' & Hor & _).
      assert (Hk : exists k, x' = set_measurement (getMeasurement (d k)) x).
      { destruct Hor as [-> | (_ & _ & k & ->)]; [exists 0%nat; reflexivity |].
        exists (S k). reflexivity. }
      exists x'. split; [exact Hx' |]. split; [| intros _ _; exact Hk].
      right. split; [exact Hy |]. split; [apply list_elem_of_here | exact Hk].
    + assert (H1 : alter (set_measurement (getMeasurement (d 0%nat))) a h !! r = Some x).
      { rewrite list_lookup_alter_ne by exact Hne. exact Hr. }
      destruct (IH (next_draws d) _ r x H1) as (x' & Hx' & Hor & Hmust).
      exists x'. split; [exact Hx' |]. split.
      * destruct Hor as [-> | (Hact & Hin & k & ->)]; [left; reflexivity |].
        right. split; [exact Hact |]. split; [apply list_elem_of_further, Hin |].
        exists (S k); reflexivity.
      * intros Hact Hin. apply elem_of_cons in Hin as [-> | Hin]; [congruence |].
        destruct (Hmust Hact Hin) as [k ->]. exists (S k); reflexivity.
Qed.

Lemma failures_loop_length (o : Options) (l : list ref) (d : draws) (h : list Sensor) :
  length (failures_loop o l d h) = length h.
Proof.
  revert d h. induction l as [| a l IH]; intros d h; simpl; [reflexivity |].
  destruct (h !! a) as [y |]; [| apply IH].
  destruct (decide (status y = STATUS_ACTIVE)); [| apply IH].
  destruct (Qltb (d 0%nat) (FAILURE_RATE o)); rewrite IH;
    [apply length_alter | reflexivity].
Qed.

(** After the loop every object is either untouched or was ACTIVE, is in
    the array, and is now FAILED. *)
Lemma failures_loop_spec (o : Options) (l : list ref) :
  forall (d : draws) (h : list Sensor) (r : ref) (x : Sensor),
    h !! r = Some x ->
    exists x', failures_loop o l d h !! r = Some x'
      /\ (x' = x \/
          (status x = STATUS_ACTIVE /\ r ∈ l /\ x' = set_status STATUS_FAILED x)).
Proof.
  induction l as [| a l IH]; intros d h r x Hr; simpl.
  - exists x. split; [exact Hr | left; reflexivity].
  - assert (Hskip : forall d',
        exists x', failures_loop o l d' h !! r = Some x'
          /\ (x' = x \/ (status x = STATUS_ACTIVE /\ r ∈ a :: l
                          /\ x' = set_status STATUS_FAILED x))).
    { intros d'. destruct (IH d' h r x Hr) as (x' & Hx' & Hor).
      exists x'. split; [exact Hx' |].
      destruct Hor as [-> | (Hact & Hin & ->)]; [left; reflexivity |].
      right. repeat split; [exact Hact | apply list_elem_of_further, Hin]. }
    destruct (h !! a) as [y |] eqn:Ha; [| apply Hskip].
    destruct (decide (status y = STATUS_ACTIVE)) as [Hy | Hy]; [| apply Hskip].
    destruct (Qltb (d 0%nat) (FAILURE_RATE o)); [| apply Hskip].
    destruct (decide (a = r)) as [-> | Hne].
    + assert (y = x) by congruence. subst y.
      assert (H1 : alter (set_status STATUS_FAILED) r h !! r
                   = Some (set_status STATUS_FAILED x)).
      { rewrite list_lookup_alter_eq, Hr. reflexivity. }
      destruct (IH (next_draws d) _ r _ H1) as (x' & Hx' & Hor).
      exists x'. split; [exact Hx' |]. right.
      split; [exact Hy |]. split; [apply list_elem_of_here |].
      destruct Hor as [-> | (Hact & _)]; [reflexivity | discriminate Hact].
    + assert (H1 : alter (set_status STATUS_FAILED) a h !! r = Some x).
      { rewrite list_lookup_alter_ne by exact Hne. exact Hr. }
      destruct (IH (next_draws d) _ r x H1) as (x' & Hx' & Hor).
      exists x'. split; [exact Hx' |].
      destruct Hor as [-> | (Hact & Hin & ->)]; [left; reflexivity |].
      right. repeat split; [exact Hact | apply list_elem_of_further, Hin].
Qed.

(** C5.  On a tick, the measurement scheduler writes [measurement] only on
    sensors whose status is ACTIVE (every other sensor object is left as it
    was), and the failure scheduler changes [status] only from ACTIVE to
    FAILED (every sensor that is not ACTIVE is left as it was).  Neither
    touches the array, the id counter or the pending timers. *)
Theorem schedulers_only_touch_active
    (o : Options) (d : draws) (st : State) (r : ref) (x : Sensor) :
  heap st !! r = Some x ->
  (exists x', heap (triggerMeasurements d st) !! r = Some x'
     /\ id x' = id x /\ frequency x' = frequency x /\ status x' = status x
     /\ (status x <> STATUS_ACTIVE -> x' = x)
     /\ (measurement x' <> measurement x -> status x = STATUS_ACTIVE /\ r ∈ sensors st)
     /\ (status x = STATUS_ACTIVE -> r ∈ sensors st ->
         exists k, measurement x' = getMeasurement (d k)))
  /\ (exists x', heap (triggerIntermittentFailures o d st) !! r = Some x'
     /\ id x' = id x /\ frequency x' = frequency x /\ measurement x' = measurement x
     /\ (status x <> STATUS_ACTIVE -> x' = x)
     /\ (status x' <> status x ->
         status x = STATUS_ACTIVE /\ status x' = STATUS_FAILED /\ r ∈ sensors st))
  /\ sensors (triggerMeasurements d st) = sensors st
  /\ sensors (triggerIntermittentFailures o d st) = sensors st.
Proof.
  intros Hr. split; [| split; [| split; reflexivity]].
  - destruct (measurements_loop_spec (sensors st) d (heap st) r x Hr)
      as (x' & Hx' & Hor & Hmust).
    exists x'. split; [exact Hx' |].
    destruct Hor as [-> | (Hact & Hin & k & ->)].
    + repeat split; try reflexivity; try congruence.
      intros Hact Hin. destruct (Hmust Hact Hin) as [k Hk].
      exists k. rewrite Hk at 1. reflexivity.
    + repeat split; try reflexivity; try congruence; try assumption.
      intros _ _. exists k. reflexivity.
  - destruct (failures_loop_spec o (sensors st) d (heap st) r x Hr)
      as (x' & Hx' & Hor).
    exists x'. split; [exact Hx' |].
    destruct Hor as [-> | (Hact & Hin & ->)].
    + repeat split; try reflexivity; congruence.
    + repeat split; try reflexivity; try congruence; assumption.
Qed.

(** On the activated sensor 1 a measurement tick with the draw 0.5 writes
    the measurement 50. *)
Lemma schedulers_witness :
  exists x', heap (triggerMeasurements (fun _ => 0.5%Q) st_active) !! 0%nat = Some x'
    /\ exists k : nat, measurement x' = getMeasurement ((fun _ => 0.5%Q) k).
Proof.
  destruct (schedulers_only_touch_active reliable (fun _ => 0.5%Q) st_active 0%nat
              (sensor_one STATUS_ACTIVE) eq_refl)
    as ((x' & Hx' & _ & _ & _ & _ & _ & Hm) & _).
  exists x'. split; [exact Hx' |].
  apply Hm; [reflexivity |]. apply list_elem_of_here.
Defined.

(** ** Removal from the array *)

Lemma indexOf_bounds (r : ref) (l : list ref) :
  -1 <= indexOf r l < Z.of_nat (length l).
Proof.
  induction l as [| a l IH]; simpl; [lia |].
  destruct (decide (a = r)); [lia |].
  destruct (indexOf r l <? 0) eqn:E; [lia |].
  apply Z.ltb_ge in E. lia.
Qed.

Lemma indexOf_absent (r : ref) (l : list ref) : r ∉ l <-> indexOf r l = -1.
Proof.
  induction l as [| a l IH]; simpl.
  - split; [reflexivity | intros _; apply not_elem_of_nil].
  - rewrite not_elem_of_cons. destruct (decide (a = r)) as [-> | Hne].
    + split; [intros [H _]; contradiction | discriminate].
    + pose proof (indexOf_bounds r l) as Hb.
      destruct (indexOf r l <? 0) eqn:E.
      * apply Z.ltb_lt in E. split; [reflexivity |].
        intros _. split; [congruence |]. apply IH. lia.
      * apply Z.ltb_ge in E. split; [| lia].
        intros [_ H]. apply IH in H. lia.
Qed.

Lemma indexOf_lookup (r : ref) (l : list ref) :
  0 <= indexOf r l -> l !! Z.to_nat (indexOf r l) = Some r.
Proof.
  induction l as [| a l IH]; simpl; [lia |].
  destruct (decide (a = r)) as [-> | Hne]; [reflexivity |].
  pose proof (indexOf_bounds r l) as Hb.
  destruct (indexOf r l <? 0) eqn:E; [lia |].
  apply Z.ltb_ge in E. intros _.
  replace (Z.to_nat (indexOf r l + 1)) with (S (Z.to_nat (indexOf r l))) by lia.
  simpl. apply IH. exact E.
Qed.

(** [splice(i, 1)] at a position inside the array deletes that element. *)
Lemma splice_inside {A} (i : nat) (l : list A) :
  (i < length l)%nat -> splice (Z.of_nat i) 1 l = delete i l.
Proof.
  intros Hi. unfold splice.
  destruct (Z.of_nat i <? 0) eqn:E; [apply Z.ltb_lt in E; lia |].
  replace (Z.min (Z.of_nat i) (Z.of_nat (length l))) with (Z.of_nat i) by lia.
  replace (Z.min (Z.max 1 0) (Z.of_nat (length l) - Z.of_nat i)) with 1 by lia.
  rewrite delete_take_drop.
  replace (Z.to_nat (Z.of_nat i)) with i by lia.
  replace (Z.to_nat (Z.of_nat i + 1)) with (S i) by lia.
  reflexivity.
Qed.

(** [splice(-1, 1)] deletes the last element, whatever it is. *)
Lemma splice_minus_one {A} (l : list A) :
  splice (-1) 1 l = take (length l - 1) l.
Proof.
  unfold splice. change (-1 <? 0) with true. cbv iota.
  destruct l as [| a l]; [reflexivity |].
  set (n := length (a :: l)). assert (Hn : (1 <= n)%nat) by (subst n; simpl; lia).
  replace (Z.max (Z.of_nat n + -1) 0) with (Z.of_nat (n - 1)) by lia.
  replace (Z.min (Z.max 1 0) (Z.of_nat n - Z.of_nat (n - 1))) with 1 by lia.
  replace (Z.to_nat (Z.of_nat (n - 1))) with (n - 1)%nat by lia.
  replace (Z.to_nat (Z.of_nat (n - 1) + 1)) with n by lia.
  rewrite (drop_ge _ n) by (subst n; lia). apply app_nil_r.
Qed.

(** The completion of a terminate, run while its sensor is in the array,
    deletes the first occurrence of that sensor. *)
Lemma splice_out_present (r : ref) (st : State) :
  r ∈ sensors st ->
  exists i, sensors st !! i = Some r
    /\ sensors (run_callback (SpliceOut r) st) = delete i (sensors st).
Proof.
  intros Hin. simpl.
  pose proof (indexOf_bounds r (sensors st)) as Hb.
  destruct (Z.eq_dec (indexOf r (sensors st)) (-1)) as [E | E].
  { apply indexOf_absent in E. contradiction. }
  exists (Z.to_nat (indexOf r (sensors st))).
  split; [apply indexOf_lookup; lia |].
  rewrite <- splice_inside by lia. f_equal. lia.
Qed.

(** Were it run while its sensor is not in the array, the same closure
    would delete the last sensor of the array instead: [indexOf] answers
    -1.  No run of the process does that (see the removal section
    below). *)
Lemma splice_out_absent (r : ref) (st : State) :
  r ∉ sensors st ->
  sensors (run_callback (SpliceOut r) st)
  = take (length (sensors st) - 1) (sensors st).
Proof.
  intros Hout. simpl. apply indexOf_absent in Hout. rewrite Hout.
  apply splice_minus_one.
Qed.

(** ** The request delay *)

Lemma route_chain (rq : Request) (ms : list Middleware) (h : Handler) :
  route rq = Some (ms, h) ->
  (ms = [] /\ (h = IndexRoute \/ h = DebugRoute))
  \/ (ms = [RequestDelay; RandomErrors] /\ h <> IndexRoute /\ h <> DebugRoute).
Proof.
  unfold route. intros H.
  repeat case_match; simplify_eq;
    first [ left; split; [reflexivity | auto]
          | right; split; [reflexivity | split; discriminate] ].
Qed.

(** The delay is the draw scaled to [0, 1000). *)
Lemma getRequestDelay_range (r : Q) :
  (getRequestDelay r == 1000 * r)%Q
  /\ ((0 <= r)%Q -> (r < 1)%Q ->
      (0 <= getRequestDelay r)%Q /\ (getRequestDelay r < 1000)%Q).
Proof.
  unfold getRequestDelay, DELAY_REQ_MIN, DELAY_REQ_MAX.
  split; [ring |].
  intros H0 H1.
  unfold Qle, Qlt, Qplus, Qmult, Qminus, Qopp in *; simpl in *. split; nia.
Qed.

(** C8 as stated fails: a request for [/] is served with no delay (and no
    gate): the handler is the only thing that runs. *)
Lemma index_not_delayed :
  ~ (forall (ToNumber : string -> number) (o : Options) (rq : Request)
            (delayDraw roll : Q) (st st' : State) (res : Response) (log : list Stage),
        serve ToNumber o rq delayDraw roll st = Some (st', res, log) ->
        delayed_first log = true).
Proof.
  intros H.
  specialize (H digits_ToNumber (mkOptions false false)
                {| method := GET; path := []; body := BodyObject [] |}
                0.5%Q 0.5%Q initial initial
                (res_send "Greetings from space!" newResponse) [Handled] eq_refl).
  discriminate H.
Qed.

(** C8, amended.  A request dispatched to one of the four sensor routes
    first waits [getRequestDelay] of its draw, a value of [0, 1000) that is
    the draw scaled by 1000, and only then meets the fault gate, in either
    mode.  The index and debug routes have neither delay nor gate. *)
Theorem sensor_routes_delayed
    (ToNumber : string -> number) (o : Options) (rq : Request)
    (delayDraw roll : Q) (st : State) (ms : list Middleware) (h : Handler) :
  route rq = Some (ms, h) ->
  (h <> IndexRoute -> h <> DebugRoute ->
   ms = [RequestDelay; RandomErrors]
   /\ exists st' res passed rest,
       serve ToNumber o rq delayDraw roll st
       = Some (st', res, Waited (getRequestDelay delayDraw) :: Gate passed :: rest)
       /\ passed = snd (randomErrorsMiddleware o roll newResponse)
       /\ (getRequestDelay delayDraw == 1000 * delayDraw)%Q
       /\ ((0 <= delayDraw)%Q -> (delayDraw < 1)%Q ->
           (0 <= getRequestDelay delayDraw)%Q /\ (getRequestDelay delayDraw < 1000)%Q))
  /\ (h = IndexRoute \/ h = DebugRoute ->
      ms = []
      /\ exists res, serve ToNumber o rq delayDraw roll st = Some (st, res, [Handled])).
Proof.
  intros Hroute. pose proof (route_chain _ _ _ Hroute) as Hchain.
  split.
  - intros Hi Hd.
    destruct Hchain as [[_ [? | ?]] | [-> _]]; [congruence | congruence |].
    split; [reflexivity |].
    unfold serve. rewrite Hroute. simpl.
    destruct (randomErrorsMiddleware o roll newResponse) as [res1 next] eqn:Hgate.
    pose proof (getRequestDelay_range delayDraw) as [Heq Hrange].
    destruct next.
    + destruct (run_handler ToNumber h st rq res1) as [st' res'] eqn:Hh.
      exists st', res', true, [Handled]. simpl. auto.
    + exists st, res1, false, []. simpl. auto.
  - intros Hh.
    destruct Hchain as [[-> _] | [_ [Hi Hd]]]; [| destruct Hh; contradiction].
    split; [reflexivity |].
    unfold serve. rewrite Hroute. simpl.
    destruct Hh as [-> | ->]; simpl; eexists; reflexivity.
Qed.

Lemma sensor_routes_delayed_witness :
  exists st' res passed rest,
    serve digits_ToNumber reliable create_request 0.5 0.5 initial
    = Some (st', res, Waited (getRequestDelay 0.5) :: Gate passed :: rest).
Proof.
  destruct (sensor_routes_delayed digits_ToNumber reliable create_request 0.5 0.5
              initial [RequestDelay; RandomErrors] CreateSensor eq_refl) as [H _].
  destruct H as (_ & st' & res & passed & rest & Hs & _); [discriminate | discriminate |].
  exists st', res, passed, rest. exact Hs.
Defined.

(** ** Runs of the process: identifiers *)

Section Traces.

Variable ToNumber : string -> number.
Variable o : Options.

Lemma number_eqb_Z (a : Z) (n : number) :
  number_eqb a n = true ->
  number_falsy n = (a =? 0) /\ forall b : Z, number_eqb b n = true -> b = a.
Proof.
  destruct n as [| | | q]; simpl; try discriminate.
  intros H. apply Qeq_bool_iff in H. split.
  - destruct (a =? 0) eqn:E; simpl.
    + apply Z.eqb_eq in E. subst a. apply Qeq_bool_iff. symmetry. exact H.
    + apply Z.eqb_neq in E. apply not_true_iff_false. intros Hq.
      apply Qeq_bool_iff in Hq. rewrite Hq in H.
      unfold Qeq in H; simpl in H. lia.
  - intros b Hb. apply Qeq_bool_iff in Hb. rewrite <- H in Hb.
    unfold Qeq in Hb; simpl in Hb. lia.
Qed.

(** What a handler does to the state does not depend on the response
    object it is given. *)
Lemma create_state (st : State) (b : Body) (res : Response) :
  let st' := fst (createSensorRoute st b res) in
  st' = st
  \/ st' = {| nextId := nextId st + 1;
              heap := heap st ++ [ {| id := nextId st; frequency := body_frequency b;
                                      status := STATUS_INITIALIZING;
                                      measurement := VNull |} ];
              sensors := sensors st ++ [length (heap st)];
              timers := timers st ++ [SetActive (length (heap st))] |}.
Proof.
  unfold createSensorRoute.
  destruct (Number_isNaN (body_frequency b)); [left; reflexivity |].
  destruct (Number_isInteger (body_frequency b)); simpl; [right | left]; reflexivity.
Qed.

Lemma change_state (st : State) (idParam action : string) (res : Response) :
  let st' := fst (changeSensorRoute ToNumber st idParam action res) in
  st' = st
  \/ exists r x c s,
      find_by_id (heap st) (ToNumber idParam) (sensors st) = Some (r, x)
      /\ accepts (status x) = true
      /\ ((c = SetActive r /\ s = STATUS_RESTARTING)
          \/ (c = SpliceOut r /\ s = STATUS_TERMINATING))
      /\ st' = actionAfterDelay c (update r (set_status s) st).
Proof.
  unfold changeSensorRoute.
  destruct (number_falsy (ToNumber idParam)); [left; reflexivity |].
  destruct (find_by_id (heap st) (ToNumber idParam) (sensors st)) as [[r x] |] eqn:Hf;
    [| left; reflexivity].
  fold (accepts (status x)).
  destruct (accepts (status x)) eqn:Ha; simpl; [| left; reflexivity].
  destruct (String.eqb action ACTION_RESTART).
  { right. exists r, x, (SetActive r), STATUS_RESTARTING.
    split; [reflexivity |]. split; [exact Ha |].
    split; [left; split; reflexivity | reflexivity]. }
  destruct (String.eqb action ACTION_TERMINATE).
  { right. exists r, x, (SpliceOut r), STATUS_TERMINATING.
    split; [reflexivity |]. split; [exact Ha |].
    split; [right; split; reflexivity | reflexivity]. }
  left; reflexivity.
Qed.

(** A served request leaves the state as it was, or as the create or the
    action handler leaves it. *)
Lemma run_chain_state (ms : list Middleware) (h : Handler) (dd roll : Q)
    (st : State) (rq : Request) (res : Response) :
  let st' := fst (fst (run_chain ToNumber o ms h dd roll st rq res)) in
  st' = st \/ exists res0, st' = fst (run_handler ToNumber h st rq res0).
Proof.
  revert res. induction ms as [| m ms IH]; intros res; simpl.
  - right. exists res. destruct (run_handler ToNumber h st rq res); reflexivity.
  - destruct m.
    + specialize (IH res).
      destruct (run_chain ToNumber o ms h dd roll st rq res) as [[st1 res1] log1].
      exact IH.
    + destruct (randomErrorsMiddleware o roll res) as [res1 next].
      destruct next; [| left; reflexivity].
      specialize (IH res1).
      destruct (run_chain ToNumber o ms h dd roll st rq res1) as [[st1 res2] log1].
      exact IH.
Qed.

Lemma serve_state (rq : Request) (dd roll : Q) (st : State) :
  let st' := step ToNumber o st (Serve rq dd roll) in
  st' = st
  \/ (exists b res, st' = fst (createSensorRoute st b res))
  \/ (exists i a res, st' = fst (changeSensorRoute ToNumber st i a res)).
Proof.
  simpl. unfold serve. destruct (route rq) as [[ms h] |]; [| left; reflexivity].
  pose proof (run_chain_state ms h dd roll st rq newResponse) as H.
  destruct (run_chain ToNumber o ms h dd roll st rq newResponse) as [[st1 res1] log1].
  simpl in H. destruct H as [-> | [res0 ->]]; [left; reflexivity |].
  destruct h; simpl;
    first [ left; reflexivity
          | right; left; eexists _, _; reflexivity
          | right; right; eexists _, _, _; reflexivity ].
Qed.

Lemma fire_nextId (k : nat) (st : State) : nextId (fire k st) = nextId st.
Proof.
  unfold fire. destruct (timers st !! k) as [[r | r] |]; reflexivity.
Qed.

(** No event ever lowers the id counter. *)
Lemma step_nextId (st : State) (e : Event) :
  nextId st <= nextId (step ToNumber o st e).
Proof.
  destruct e as [rq dd roll | k | d | d].
  - pose proof (serve_state rq dd roll st) as H. cbv zeta in H.
    destruct H as [H | [(b & res & H) | (i & a & res & H)]]; rewrite H; [lia | |].
    + pose proof (create_state st b res) as Hc. cbv zeta in Hc.
      destruct Hc as [Hc | Hc]; rewrite Hc; simpl; lia.
    + pose proof (change_state st i a res) as Hc. cbv zeta in Hc.
      destruct Hc as [Hc | (r & x & c & s & _ & _ & _ & Hc)]; rewrite Hc; simpl; lia.
  - simpl. rewrite fire_nextId. lia.
  - simpl. lia.
  - simpl. lia.
Qed.

Lemma run_nextId (evs : list Event) (st : State) :
  nextId st <= nextId (run ToNumber o st evs).
Proof.
  revert st. induction evs as [| e evs IH]; intros st; [simpl; lia |].
  change (run ToNumber o st (e :: evs)) with (run ToNumber o (step ToNumber o st e) evs).
  eapply Z.le_trans; [apply step_nextId | apply IH].
Qed.

(** When the gate lets a request through, it hands on the response object
    untouched. *)
Lemma gate_passed (roll : Q) (res res1 : Response) :
  randomErrorsMiddleware o roll res = (res1, true) -> res1 = res.
Proof.
  rewrite gate_is_selection.
  destruct (select_category (configured_rates o) roll) as [[| | |] |]; simpl;
    congruence.
Qed.

(** A request that the gate stops is never answered with a sensor. *)
Lemma gate_stopped (roll : Q) (res1 : Response) (v : value) :
  randomErrorsMiddleware o roll newResponse = (res1, false) ->
  res1 <> res_json v newResponse.
Proof.
  rewrite gate_is_selection.
  destruct (select_category (configured_rates o) roll) as [[| | |] |]; simpl;
    intros H; inversion H; subst; discriminate.
Qed.

(** A create request answered with a sensor: the sensor got the value of
    the counter, and the counter moved on by one. *)
Lemma create_served (rq : Request) (dd roll : Q) (st st' : State)
    (log : list Stage) (s : Sensor) :
  method rq = POST -> path rq = ["sensors"] ->
  serve ToNumber o rq dd roll st = Some (st', res_json (sensor_json s) newResponse, log) ->
  id s = nextId st /\ nextId st' = nextId st + 1
  /\ heap st' = (heap st ++ [s])%list /\ status s = STATUS_INITIALIZING
  /\ measurement s = VNull /\ frequency s = body_frequency (body rq).
Proof.
  intros Hm Hp. unfold serve, route. rewrite Hm, Hp. simpl.
  destruct (randomErrorsMiddleware o roll newResponse) as [res1 next] eqn:Hgate.
  destruct next.
  - apply gate_passed in Hgate. subst res1.
    unfold createSensorRoute.
    destruct (Number_isNaN (body_frequency (body rq))); [discriminate |].
    destruct (Number_isInteger (body_frequency (body rq))); simpl; [| discriminate].
    intros H. injection H as Hst Hid Hf Hs Hmeas Hlog.
    assert (Hstatus : status s = STATUS_INITIALIZING).
    { destruct (status s); simpl in Hs; try discriminate Hs. reflexivity. }
    subst st'. simpl. rewrite Hstatus.
    destruct s as [i f stt m]; simpl in *. subst. auto 7.
  - intros H. inversion H; subst. exfalso.
    eapply gate_stopped; [exact Hgate | reflexivity].
Qed.

(** C6.  Take any run of the process from its start, with requests of all
    kinds, timers and scheduler ticks in any order.  Of any two create
    requests answered with a sensor, the later one gets the strictly larger
    id; so the ids handed out are strictly increasing and none is handed
    out twice, whatever was terminated and removed in between. *)
Theorem ids_strictly_increasing
    (evs1 evs2 : list Event) (rq1 rq2 : Request) (dd1 roll1 dd2 roll2 : Q)
    (st1 st2 : State) (log1 log2 : list Stage) (s1 s2 : Sensor) :
  method rq1 = POST -> path rq1 = ["sensors"] ->
  method rq2 = POST -> path rq2 = ["sensors"] ->
  serve ToNumber o rq1 dd1 roll1 (run ToNumber o initial evs1)
    = Some (st1, res_json (sensor_json s1) newResponse, log1) ->
  serve ToNumber o rq2 dd2 roll2 (run ToNumber o st1 evs2)
    = Some (st2, res_json (sensor_json s2) newResponse, log2) ->
  1 <= id s1 /\ id s1 < id s2.
Proof.
  intros Hm1 Hp1 Hm2 Hp2 H1 H2.
  destruct (create_served _ _ _ _ _ _ _ Hm1 Hp1 H1) as (Hid1 & Hn1 & _).
  destruct (create_served _ _ _ _ _ _ _ Hm2 Hp2 H2) as (Hid2 & _).
  pose proof (run_nextId evs1 initial) as Hstart. simpl in Hstart.
  pose proof (run_nextId evs2 st1) as Hmono.
  lia.
Qed.

(** ** Lists: deleting one element *)

Lemma filter_delete_other {A} (P : A -> Prop) `{forall x, Decision (P x)}
    (l : list A) (k : nat) (c : A) :
  l !! k = Some c -> ~ P c -> filter P (delete k l) = filter P l.
Proof.
  intros Hk Hc. rewrite <- (take_drop_middle l k c Hk) at 2.
  rewrite delete_take_drop, !filter_app, filter_cons_False by exact Hc.
  reflexivity.
Qed.

Lemma filter_delete_only {A} (P : A -> Prop) `{forall x, Decision (P x)}
    (l : list A) (k : nat) (c c' : A) :
  l !! k = Some c -> P c -> filter P l = [c'] ->
  c = c' /\ filter P (delete k l) = [].
Proof.
  intros Hk Hc Hone. rewrite <- (take_drop_middle l k c Hk) in Hone.
  rewrite filter_app, filter_cons_True in Hone by exact Hc.
  apply elt_eq_unit in Hone as (-> & H1 & H2).
  split; [reflexivity |].
  rewrite delete_take_drop, filter_app, H1, H2. reflexivity.
Qed.

Lemma elem_of_delete_NoDup {A} (l : list A) (i : nat) (r r' : A) :
  NoDup l -> l !! i = Some r -> (r' ∈ delete i l <-> r' ∈ l /\ r' <> r).
Proof.
  intros Hnd Hi. rewrite delete_take_drop.
  pose proof (take_drop_middle l i r Hi) as Hmid.
  assert (Hl : r' ∈ l <-> r' ∈ take i l \/ r' = r \/ r' ∈ drop (S i) l).
  { rewrite <- Hmid at 1. rewrite elem_of_app, elem_of_cons. reflexivity. }
  rewrite <- Hmid in Hnd.
  apply NoDup_app in Hnd as (_ & Hsep & Hnd2).
  apply NoDup_cons in Hnd2 as [Hr2 _].
  rewrite Hl, elem_of_app. split.
  - intros [Hin | Hin].
    + split; [left; exact Hin |]. intros ->.
      apply (Hsep r Hin). apply list_elem_of_here.
    + split; [right; right; exact Hin |]. intros ->. contradiction.
  - intros [[Hin | [-> | Hin]] Hne]; [left; exact Hin | contradiction | right; exact Hin].
Qed.

(** ** The lookup by id *)

Lemma find_by_id_Some (h : list Sensor) (n : number) (l : list ref) (r : ref) (x : Sensor) :
  find_by_id h n l = Some (r, x) ->
  r ∈ l /\ h !! r = Some x /\ number_eqb (id x) n = true.
Proof.
  induction l as [| a l IH]; cbn [find_by_id]; [discriminate |].
  destruct (h !! a) as [y |] eqn:Ha.
  - destruct (number_eqb (id y) n) eqn:E.
    + intros Hf. inversion Hf; subst. split; [apply list_elem_of_here | auto].
    + intros Hf. destruct (IH Hf) as (Hin & Hx & Hn).
      split; [apply list_elem_of_further, Hin | auto].
  - intros Hf. destruct (IH Hf) as (Hin & Hx & Hn).
    split; [apply list_elem_of_further, Hin | auto].
Qed.

Lemma find_by_id_None (h : list Sensor) (n : number) (l : list ref) :
  find_by_id h n l = None ->
  forall r x, r ∈ l -> h !! r = Some x -> number_eqb (id x) n = false.
Proof.
  induction l as [| a l IH]; cbn [find_by_id]; intros Hf r x Hin Hx.
  - apply elem_of_nil in Hin. contradiction.
  - destruct (h !! a) as [y |] eqn:Ha.
    + destruct (number_eqb (id y) n) eqn:E; [discriminate |].
      apply elem_of_cons in Hin as [-> | Hin]; [congruence | eauto].
    + apply elem_of_cons in Hin as [-> | Hin]; [congruence | eauto].
Qed.

Lemma find_by_id_absent (h : list Sensor) (n : number) (l : list ref) :
  (forall r x, r ∈ l -> h !! r = Some x -> number_eqb (id x) n = false) ->
  find_by_id h n l = None.
Proof.
  induction l as [| a l IH]; cbn [find_by_id]; intros Hall; [reflexivity |].
  assert (Hrest : find_by_id h n l = None).
  { apply IH. intros r x Hin. apply Hall. apply list_elem_of_further, Hin. }
  destruct (h !! a) as [y |] eqn:Ha; [| exact Hrest].
  rewrite (Hall a y (list_elem_of_here _ _) Ha). exact Hrest.
Qed.

(** ** The invariant of the process state *)

Lemma Inv_initial : Inv initial.
Proof.
  split; simpl; try (intros; discriminate).
  - lia.
  - intros r H. apply elem_of_nil in H. contradiction.
  - apply NoDup_nil_2.
  - intros c H. apply elem_of_nil in H. contradiction.
Qed.

Lemma consistent_ext (st st' : State) (r : ref) (s : Status) :
  (r ∈ sensors st' <-> r ∈ sensors st) -> pending r st' = pending r st ->
  consistent st r s -> consistent st' r s.
Proof.
  intros Hs Hp. destruct s; simpl; rewrite Hp; tauto.
Qed.

Lemma pending_snoc (r : ref) (c : Callback) (st : State) :
  pending r (actionAfterDelay c st)
  = (pending r st ++ if decide (target c = r) then [c] else [])%list.
Proof.
  unfold pending, actionAfterDelay; simpl. rewrite filter_app.
  rewrite filter_cons, filter_nil. reflexivity.
Qed.

Lemma pending_elem (r : ref) (c : Callback) (st : State) :
  c ∈ timers st -> target c = r -> c ∈ pending r st.
Proof. intros Hin Ht. apply list_elem_of_filter. auto. Qed.

(** The pending completion of a sensor tells its status. *)
Lemma consistent_SetActive (st : State) (r : ref) (s : Status) :
  consistent st r s -> SetActive r ∈ timers st ->
  (s = STATUS_INITIALIZING \/ s = STATUS_RESTARTING)
  /\ r ∈ sensors st /\ pending r st = [SetActive r].
Proof.
  intros Hc Hin. apply (pending_elem r) in Hin; [| reflexivity].
  destruct s; simpl in Hc.
  - split; [left; reflexivity | exact Hc].
  - destruct Hc as [_ Hp]. rewrite Hp in Hin. apply elem_of_nil in Hin. contradiction.
  - destruct Hc as [_ Hp]. rewrite Hp in Hin. apply elem_of_nil in Hin. contradiction.
  - split; [right; reflexivity | exact Hc].
  - destruct Hc as [[_ Hp] | [_ Hp]]; rewrite Hp in Hin.
    + apply list_elem_of_singleton in Hin. discriminate.
    + apply elem_of_nil in Hin. contradiction.
Qed.

Lemma consistent_SpliceOut (st : State) (r : ref) (s : Status) :
  consistent st r s -> SpliceOut r ∈ timers st ->
  s = STATUS_TERMINATING /\ r ∈ sensors st /\ pending r st = [SpliceOut r].
Proof.
  intros Hc Hin. apply (pending_elem r) in Hin; [| reflexivity].
  destruct s; simpl in Hc.
  - destruct Hc as [_ Hp]. rewrite Hp in Hin.
    apply list_elem_of_singleton in Hin. discriminate.
  - destruct Hc as [_ Hp]. rewrite Hp in Hin. apply elem_of_nil in Hin. contradiction.
  - destruct Hc as [_ Hp]. rewrite Hp in Hin. apply elem_of_nil in Hin. contradiction.
  - destruct Hc as [_ Hp]. rewrite Hp in Hin.
    apply list_elem_of_singleton in Hin. discriminate.
  - destruct Hc as [[Hs Hp] | [_ Hp]].
    + auto.
    + rewrite Hp in Hin. apply elem_of_nil in Hin. contradiction.
Qed.

(** Creating a sensor keeps the invariant. *)
Lemma Inv_create (st : State) (f : value) :
  Inv st ->
  Inv {| nextId := nextId st + 1;
         heap := heap st ++ [ {| id := nextId st; frequency := f;
                                 status := STATUS_INITIALIZING; measurement := VNull |} ];
         sensors := sensors st ++ [length (heap st)];
         timers := timers st ++ [SetActive (length (heap st))] |}.
Proof.
  intros [Hpos Hord Hnext Hsens Hnd Htim Hstat].
  set (new := {| id := nextId st; frequency := f;
                 status := STATUS_INITIALIZING; measurement := VNull |}).
  set (n := length (heap st)).
  assert (Hn_sens : n ∉ sensors st).
  { intros H. apply Hsens in H. subst n. lia. }
  assert (Hn_pend : pending n st = []).
  { unfold pending. destruct (filter (fun c => target c = n) (timers st)) as [| c l] eqn:E;
      [reflexivity |].
    assert (Hc : c ∈ filter (fun c => target c = n) (timers st))
      by (rewrite E; apply list_elem_of_here).
    apply list_elem_of_filter in Hc as [Ht Hc]. apply Htim in Hc. subst n. lia. }
  assert (Hold : forall r, (r < n)%nat ->
            (r ∈ (sensors st ++ [n])%list <-> r ∈ sensors st)
            /\ filter (fun c => target c = r) (timers st ++ [SetActive n])
               = filter (fun c => target c = r) (timers st)).
  { intros r Hr. split.
    - rewrite elem_of_app, list_elem_of_singleton. split; [intros [H | H]; [exact H | lia] | auto].
    - rewrite filter_app, filter_cons_False, filter_nil, app_nil_r by (simpl; lia).
      reflexivity. }
  split; simpl.
  - lia.
  - intros i j x y Hi Hj Hij.
    apply lookup_snoc_Some in Hi as [[_ Hi] | [Hi <-]];
      apply lookup_snoc_Some in Hj as [[Hjlt Hj] | [Hj <-]].
    + eapply Hord; eauto.
    + simpl. apply Hnext in Hi. lia.
    + lia.
    + lia.
  - intros i x Hi. apply lookup_snoc_Some in Hi as [[_ Hi] | [Hi <-]].
    + apply Hnext in Hi. lia.
    + simpl. lia.
  - intros r Hr. rewrite length_app. simpl.
    apply elem_of_app in Hr as [Hr | Hr]; [apply Hsens in Hr; lia |].
    apply list_elem_of_singleton in Hr. subst r. fold n. lia.
  - apply NoDup_app. split; [exact Hnd |]. split; [| apply NoDup_singleton].
    intros r Hr Hr'. apply list_elem_of_singleton in Hr'. subst r. contradiction.
  - intros c Hc. rewrite length_app. simpl.
    apply elem_of_app in Hc as [Hc | Hc]; [apply Htim in Hc; lia |].
    apply list_elem_of_singleton in Hc. subst c. simpl. fold n. lia.
  - intros r x Hr. apply lookup_snoc_Some in Hr as [[Hlt Hr] | [-> <-]].
    + destruct (Hold r Hlt) as [Hmem Hpend].
      eapply (consistent_ext st); [exact Hmem | exact Hpend | apply Hstat, Hr].
    + simpl. split.
      * apply elem_of_app. right. apply list_elem_of_here.
      * unfold pending; simpl. fold n. rewrite filter_app.
        fold (pending n st). rewrite Hn_pend. simpl.
        rewrite filter_cons_True by reflexivity. reflexivity.
Qed.

Lemma lookup_alter_status (h : list Sensor) (r i : ref) (s : Status) (x' : Sensor) :
  alter (set_status s) r h !! i = Some x' ->
  exists x0, h !! i = Some x0 /\ id x' = id x0
    /\ ((i <> r /\ x' = x0) \/ (i = r /\ x' = set_status s x0)).
Proof.
  destruct (decide (r = i)) as [-> | Hne].
  - rewrite list_lookup_alter_eq. destruct (h !! i) as [x0 |]; simpl; [| discriminate].
    intros [= <-]. exists x0. auto.
  - rewrite list_lookup_alter_ne by exact Hne. intros H. exists x'. auto.
Qed.

(** An accepted restart or terminate keeps the invariant. *)
Lemma Inv_action (st : State) (r : ref) (x : Sensor) (c : Callback) (s : Status) :
  Inv st -> heap st !! r = Some x -> accepts (status x) = true ->
  (c = SetActive r /\ s = STATUS_RESTARTING)
  \/ (c = SpliceOut r /\ s = STATUS_TERMINATING) ->
  Inv (actionAfterDelay c (update r (set_status s) st)).
Proof.
  intros [Hpos Hord Hnext Hsens Hnd Htim Hstat] Hr Hacc Hcs.
  assert (Htarget : target c = r) by (destruct Hcs as [[-> _] | [-> _]]; reflexivity).
  pose proof (Hstat r x Hr) as Hcons.
  apply accepts_spec in Hacc.
  assert (Hin : r ∈ sensors st /\ pending r st = []).
  { destruct Hacc as [E | E]; rewrite E in Hcons; exact Hcons. }
  destruct Hin as [Hin Hpend].
  split; simpl.
  - exact Hpos.
  - intros i j xi xj Hi Hj Hij.
    apply lookup_alter_status in Hi as (xi0 & Hi & -> & _).
    apply lookup_alter_status in Hj as (xj0 & Hj & -> & _).
    eapply Hord; eauto.
  - intros i xi Hi. apply lookup_alter_status in Hi as (xi0 & Hi & -> & _). eauto.
  - intros r' Hr'. rewrite length_alter. auto.
  - exact Hnd.
  - intros c' Hc'. rewrite length_alter.
    apply elem_of_app in Hc' as [Hc' | Hc']; [auto |].
    apply list_elem_of_singleton in Hc'. subst c'. rewrite Htarget.
    eapply lookup_lt_Some, Hr.
  - intros i xi Hi. apply lookup_alter_status in Hi as (xi0 & Hi & _ & Hcase).
    destruct Hcase as [[Hne ->] | [-> ->]].
    + eapply (consistent_ext st); [reflexivity | | apply Hstat, Hi].
      rewrite pending_snoc. unfold pending at 1; simpl. fold (pending i st).
      destruct (decide (target c = i)); [congruence | apply app_nil_r].
    + assert (Hp : pending r (actionAfterDelay c (update r (set_status s) st)) = [c]).
      { rewrite pending_snoc. unfold pending at 1; simpl. fold (pending r st).
        rewrite Hpend. destruct (decide (target c = r)); [reflexivity | contradiction]. }
      unfold actionAfterDelay, update in Hp |- *; simpl in Hp |- *.
      destruct Hcs as [[-> ->] | [-> ->]]; simpl.
      * split; [exact Hin | exact Hp].
      * left. split; [exact Hin | exact Hp].
Qed.

(** A timer that fires keeps the invariant. *)
Lemma Inv_fire (k : nat) (st : State) : Inv st -> Inv (fire k st).
Proof.
  intros Hinv. pose proof Hinv as [Hpos Hord Hnext Hsens Hnd Htim Hstat].
  unfold fire. destruct (timers st !! k) as [c |] eqn:Hk; [| exact Hinv].
  assert (Hc : c ∈ timers st) by (apply list_elem_of_lookup; eauto).
  pose proof (Htim c Hc) as Hlt.
  destruct (lookup_lt_is_Some_2 _ _ Hlt) as [x Hx].
  pose proof (Hstat _ x Hx) as Hcons.
  assert (Hother : forall i, i <> target c ->
            filter (fun c' => target c' = i) (delete k (timers st)) = pending i st).
  { intros i Hi. apply (filter_delete_other _ _ _ c Hk). congruence. }
  destruct c as [r | r]; simpl in *.
  - destruct (consistent_SetActive _ _ _ Hcons Hc) as (_ & Hin & Hp).
    destruct (filter_delete_only (fun c' => target c' = r) _ _ _ _ Hk eq_refl Hp)
      as [_ Hgone].
    split; simpl.
    + exact Hpos.
    + intros i j xi xj Hi Hj Hij.
      apply lookup_alter_status in Hi as (xi0 & Hi & -> & _).
      apply lookup_alter_status in Hj as (xj0 & Hj & -> & _).
      eapply Hord; eauto.
    + intros i xi Hi. apply lookup_alter_status in Hi as (xi0 & Hi & -> & _). eauto.
    + intros r' Hr'. rewrite length_alter. auto.
    + exact Hnd.
    + intros c' Hc'. rewrite length_alter. apply list_elem_of_delete_inv in Hc'. auto.
    + intros i xi Hi. apply lookup_alter_status in Hi as (xi0 & Hi & _ & Hcase).
      destruct Hcase as [[Hne ->] | [-> ->]].
      * eapply (consistent_ext st); [reflexivity | apply Hother, Hne | apply Hstat, Hi].
      * simpl. split; [exact Hin | exact Hgone].
  - destruct (consistent_SpliceOut _ _ _ Hcons Hc) as (Hterm & Hin & Hp).
    destruct (filter_delete_only (fun c' => target c' = r) _ _ _ _ Hk eq_refl Hp)
      as [_ Hgone].
    destruct (splice_out_present r st Hin) as (i & Hi & Hdel). simpl in Hdel.
    rewrite Hdel.
    split; simpl.
    + exact Hpos.
    + exact Hord.
    + exact Hnext.
    + intros r' Hr'. apply list_elem_of_delete_inv in Hr'. auto.
    + eapply sublist_NoDup; [exact Hnd | apply sublist_delete].
    + intros c' Hc'. apply list_elem_of_delete_inv in Hc'. auto.
    + intros j xj Hj. destruct (decide (j = r)) as [-> | Hne].
      * assert (xj = x) by congruence. subst xj. rewrite Hterm. simpl. right.
        split; [| exact Hgone].
        intros Hmem. apply (elem_of_delete_NoDup _ _ r r Hnd Hi) in Hmem.
        destruct Hmem as [_ Hmem]. contradiction.
      * eapply (consistent_ext st); [| apply Hother, Hne | apply Hstat, Hj].
        simpl. rewrite (elem_of_delete_NoDup _ _ r j Hnd Hi). tauto.
Qed.

(** A change of the objects that keeps each one's id and moves no status
    except from ACTIVE to FAILED keeps the invariant. *)
Lemma Inv_same_phase (st : State) (h' : list Sensor) :
  Inv st -> length h' = length (heap st) ->
  (forall r x, heap st !! r = Some x ->
     exists x', h' !! r = Some x' /\ id x' = id x
       /\ (status x' = status x
           \/ (status x = STATUS_ACTIVE /\ status x' = STATUS_FAILED))) ->
  Inv {| nextId := nextId st; heap := h'; sensors := sensors st; timers := timers st |}.
Proof.
  intros [Hpos Hord Hnext Hsens Hnd Htim Hstat] Hlen Hrel.
  assert (Hback : forall i x', h' !! i = Some x' ->
            exists x, heap st !! i = Some x /\ id x' = id x
              /\ (status x' = status x
                  \/ (status x = STATUS_ACTIVE /\ status x' = STATUS_FAILED))).
  { intros i x' Hi. pose proof (lookup_lt_Some _ _ _ Hi) as Hlt. rewrite Hlen in Hlt.
    destruct (lookup_lt_is_Some_2 _ _ Hlt) as [x Hx].
    destruct (Hrel i x Hx) as (x'' & Hx'' & Hid & Hs).
    exists x. assert (x'' = x') by congruence. subst x''. auto. }
  split; simpl.
  - exact Hpos.
  - intros i j xi xj Hi Hj Hij.
    apply Hback in Hi as (xi0 & Hi & -> & _).
    apply Hback in Hj as (xj0 & Hj & -> & _). eapply Hord; eauto.
  - intros i xi Hi. apply Hback in Hi as (xi0 & Hi & -> & _). eauto.
  - intros r Hr. rewrite Hlen. auto.
  - exact Hnd.
  - intros c Hc. rewrite Hlen. auto.
  - intros r x' Hr. apply Hback in Hr as (x & Hx & _ & Hs).
    pose proof (Hstat r x Hx) as Hcons.
    assert (Hc : consistent st r (status x')).
    { destruct Hs as [-> | [Ea ->]]; [exact Hcons |]. rewrite Ea in Hcons. exact Hcons. }
    eapply consistent_ext; [| | exact Hc]; reflexivity.
Qed.

(** Every event keeps the invariant. *)
Lemma step_Inv (st : State) (e : Event) : Inv st -> Inv (step ToNumber o st e).
Proof.
  intros Hinv. destruct e as [rq dd roll | k | d | d].
  - pose proof (serve_state rq dd roll st) as H. cbv zeta in H.
    destruct H as [H | [(b & res & H) | (i & a & res & H)]]; rewrite H; [exact Hinv | |].
    + pose proof (create_state st b res) as Hc. cbv zeta in Hc.
      destruct Hc as [Hc | Hc]; rewrite Hc; [exact Hinv | apply Inv_create, Hinv].
    + pose proof (change_state st i a res) as Hc. cbv zeta in Hc.
      destruct Hc as [Hc | (r & x & c & s & Hf & Hacc & Hcs & Hc)]; rewrite Hc;
        [exact Hinv |].
      apply find_by_id_Some in Hf as (_ & Hx & _).
      eapply Inv_action; eauto.
  - apply Inv_fire, Hinv.
  - apply Inv_same_phase; [exact Hinv | apply failures_loop_length |].
    intros r x Hx.
    destruct (failures_loop_spec o (sensors st) d (heap st) r x Hx) as (x' & Hx' & Hor).
    exists x'. split; [exact Hx' |].
    destruct Hor as [-> | (Hact & _ & ->)]; simpl; auto.
  - apply Inv_same_phase; [exact Hinv | apply measurements_loop_length |].
    intros r x Hx.
    destruct (measurements_loop_spec (sensors st) d (heap st) r x Hx)
      as (x' & Hx' & Hor & _).
    exists x'. split; [exact Hx' |].
    destruct Hor as [-> | (_ & _ & k & ->)]; simpl; auto.
Qed.

Lemma run_app (st : State) (evs evs' : list Event) :
  run ToNumber o st (evs ++ evs') = run ToNumber o (run ToNumber o st evs) evs'.
Proof. unfold run. apply fold_left_app. Qed.

Lemma run_Inv (evs : list Event) (st : State) : Inv st -> Inv (run ToNumber o st evs).
Proof.
  revert st. induction evs as [| e evs IH]; intros st Hinv; [exact Hinv |].
  apply (IH (step ToNumber o st e)). apply step_Inv, Hinv.
Qed.

(** Every state the process reaches satisfies the invariant. *)
Lemma reachable_Inv (evs : list Event) : Inv (run ToNumber o initial evs).
Proof. apply run_Inv, Inv_initial. Qed.

(** ** Termination is final *)

(** Nothing takes a sensor out of the TERMINATING status. *)
Lemma step_terminating (st : State) (e : Event) (r : ref) (x : Sensor) :
  Inv st -> heap st !! r = Some x -> status x = STATUS_TERMINATING ->
  exists x', heap (step ToNumber o st e) !! r = Some x'
    /\ status x' = STATUS_TERMINATING /\ id x' = id x.
Proof.
  intros Hinv Hx Hterm.
  assert (Hnot : forall r' x', heap st !! r' = Some x' -> accepts (status x') = true ->
            r' <> r).
  { intros r' x' Hx' Hacc ->. assert (x' = x) by congruence. subst x'.
    rewrite Hterm in Hacc. discriminate. }
  destruct e as [rq dd roll | k | d | d].
  - pose proof (serve_state rq dd roll st) as H. cbv zeta in H.
    destruct H as [H | [(b & res & H) | (i & a & res & H)]]; rewrite H; [eauto | |].
    + pose proof (create_state st b res) as Hc. cbv zeta in Hc.
      destruct Hc as [Hc | Hc]; rewrite Hc; [eauto |]. simpl.
      exists x. rewrite lookup_app_l by (eapply lookup_lt_Some, Hx). auto.
    + pose proof (change_state st i a res) as Hc. cbv zeta in Hc.
      destruct Hc as [Hc | (r' & x' & c & s & Hf & Hacc & _ & Hc)]; rewrite Hc; [eauto |].
      apply find_by_id_Some in Hf as (_ & Hx' & _).
      simpl. exists x. rewrite list_lookup_alter_ne by (eapply Hnot; eauto). auto.
  - simpl. unfold fire. destruct (timers st !! k) as [c |] eqn:Hk; [| eauto].
    destruct c as [r' | r']; simpl; [| eauto].
    assert (Hc : SetActive r' ∈ timers st) by (apply list_elem_of_lookup; eauto).
    assert (Hne : r' <> r).
    { intros ->. pose proof (inv_status st Hinv r x Hx) as Hcons.
      destruct (consistent_SetActive _ _ _ Hcons Hc) as ([E | E] & _); congruence. }
    exists x. rewrite list_lookup_alter_ne by exact Hne. auto.
  - simpl.
    destruct (failures_loop_spec o (sensors st) d (heap st) r x Hx) as (x' & Hx' & Hor).
    exists x'. split; [exact Hx' |].
    destruct Hor as [-> | (Hact & _)]; [auto | congruence].
  - simpl.
    destruct (measurements_loop_spec (sensors st) d (heap st) r x Hx)
      as (x' & Hx' & Hor & _).
    exists x'. split; [exact Hx' |].
    destruct Hor as [-> | (Hact & _)]; [auto | congruence].
Qed.

(** No new completion is queued for a sensor that is TERMINATING. *)
Lemma step_no_completion (st : State) (e : Event) (r : ref) (x : Sensor) :
  Inv st -> heap st !! r = Some x -> status x = STATUS_TERMINATING ->
  SpliceOut r ∉ timers st -> SpliceOut r ∉ timers (step ToNumber o st e).
Proof.
  intros Hinv Hx Hterm Hout.
  destruct e as [rq dd roll | k | d | d]; [| | exact Hout | exact Hout].
  - pose proof (serve_state rq dd roll st) as H. cbv zeta in H.
    destruct H as [H | [(b & res & H) | (i & a & res & H)]]; rewrite H; [exact Hout | |].
    + pose proof (create_state st b res) as Hc. cbv zeta in Hc.
      destruct Hc as [Hc | Hc]; rewrite Hc; [exact Hout |]. simpl.
      rewrite elem_of_app, list_elem_of_singleton. intros [Hin | Hin]; [auto | discriminate].
    + pose proof (change_state st i a res) as Hc. cbv zeta in Hc.
      destruct Hc as [Hc | (r' & x' & c & s & Hf & Hacc & Hcs & Hc)]; rewrite Hc;
        [exact Hout |].
      apply find_by_id_Some in Hf as (_ & Hx' & _). simpl.
      rewrite elem_of_app, list_elem_of_singleton. intros [Hin | Hin]; [auto |].
      destruct Hcs as [[-> _] | [-> _]]; [discriminate |].
      injection Hin as ->. assert (x' = x) by congruence. subst x'.
      rewrite Hterm in Hacc. discriminate.
  - simpl. unfold fire. destruct (timers st !! k) as [c |] eqn:Hk; [| exact Hout].
    intros Hin. apply Hout.
    destruct c; simpl in Hin; apply list_elem_of_delete_inv in Hin; exact Hin.
Qed.

(** A TERMINATING sensor with no completion left is out of the array. *)
Lemma Inv_terminated (st : State) (r : ref) (x : Sensor) :
  Inv st -> heap st !! r = Some x -> status x = STATUS_TERMINATING ->
  (SpliceOut r ∈ timers st /\ r ∈ sensors st)
  \/ ((SpliceOut r ∉ timers st) /\ (r ∉ sensors st)).
Proof.
  intros Hinv Hx Hterm. pose proof (inv_status st Hinv r x Hx) as Hcons.
  rewrite Hterm in Hcons. simpl in Hcons. destruct Hcons as [[Hin Hp] | [Hout Hp]].
  - left. split; [| exact Hin].
    assert (H : SpliceOut r ∈ pending r st) by (rewrite Hp; apply list_elem_of_here).
    apply list_elem_of_filter in H. tauto.
  - right. split; [| exact Hout].
    intros H. apply (pending_elem r) in H; [| reflexivity].
    rewrite Hp in H. apply elem_of_nil in H. contradiction.
Qed.

(** Once removed, a sensor stays removed. *)
Lemma step_Gone (st : State) (e : Event) (r : ref) :
  Inv st -> Gone r st -> Gone r (step ToNumber o st e).
Proof.
  intros Hinv ((x & Hx & Hterm) & Hout & Hnone).
  destruct (step_terminating st e r x Hinv Hx Hterm) as (x' & Hx' & Hterm' & _).
  pose proof (step_no_completion st e r x Hinv Hx Hterm Hnone) as Hnone'.
  split; [eauto |]. split; [| exact Hnone'].
  destruct (Inv_terminated _ r x' (step_Inv st e Hinv) Hx' Hterm') as [[H _] | [_ H]];
    [contradiction | exact H].
Qed.

Lemma run_Gone (evs : list Event) (st : State) (r : ref) :
  Inv st -> Gone r st -> Gone r (run ToNumber o st evs).
Proof.
  revert st. induction evs as [| e evs IH]; intros st Hinv Hg; [exact Hg |].
  apply (IH (step ToNumber o st e)); [apply step_Inv, Hinv | apply step_Gone; assumption].
Qed.

Lemma run_terminating (evs : list Event) (st : State) (r : ref) (x : Sensor) :
  Inv st -> heap st !! r = Some x -> status x = STATUS_TERMINATING ->
  exists x', heap (run ToNumber o st evs) !! r = Some x'
    /\ status x' = STATUS_TERMINATING /\ id x' = id x.
Proof.
  revert st x. induction evs as [| e evs IH]; intros st x Hinv Hx Hterm; [eauto |].
  destruct (step_terminating st e r x Hinv Hx Hterm) as (x1 & Hx1 & Hterm1 & Hid1).
  destruct (IH (step ToNumber o st e) x1 (step_Inv st e Hinv) Hx1 Hterm1)
    as (x' & Hx' & Hterm' & Hid').
  exists x'. split; [exact Hx' |]. split; [exact Hterm' | congruence].
Qed.

(** No sensor of the array carries the id of a removed sensor, so a GET
    for that id is answered 404. *)
Lemma Gone_not_found (st : State) (r : ref) (x : Sensor) (idParam : string) :
  Inv st -> Gone r st -> heap st !! r = Some x ->
  number_eqb (id x) (ToNumber idParam) = true ->
  (forall r' y, r' ∈ sensors st -> heap st !! r' = Some y -> id y <> id x)
  /\ getSensorRoute ToNumber st idParam newResponse = error_reply 404 "not found".
Proof.
  intros Hinv (_ & Hout & _) Hx Hn.
  assert (Hids : forall r' y, r' ∈ sensors st -> heap st !! r' = Some y -> id y <> id x).
  { intros r' y Hin Hy Heq.
    destruct (lt_eq_lt_dec r' r) as [[Hlt | ->] | Hgt].
    - pose proof (inv_order st Hinv r' r y x Hy Hx Hlt). lia.
    - contradiction.
    - pose proof (inv_order st Hinv r r' x y Hx Hy Hgt). lia. }
  split; [exact Hids |].
  destruct (number_eqb_Z _ _ Hn) as [Hfalsy Huniq].
  unfold getSensorRoute. rewrite Hfalsy.
  pose proof (inv_next st Hinv r x Hx) as Hpos.
  destruct (id x =? 0) eqn:E; [apply Z.eqb_eq in E; lia |].
  rewrite find_by_id_absent; [reflexivity |].
  intros r' y Hin Hy. destruct (number_eqb (id y) (ToNumber idParam)) eqn:Ey; [| reflexivity].
  apply Huniq in Ey. exfalso. eapply Hids; eauto.
Qed.

(** A GET for a sensor, as served: the gate either stops the request or
    hands it to the handler on a fresh response. *)
Lemma serve_get_sensor (rq : Request) (dd roll : Q) (st : State) (i : string) :
  method rq = GET -> path rq = ["sensors"; i] ->
  serve ToNumber o rq dd roll st
  = Some (st, getSensorRoute ToNumber st i newResponse,
          [Waited (getRequestDelay dd); Gate true; Handled])
  \/ exists res1,
      randomErrorsMiddleware o roll newResponse = (res1, false)
      /\ serve ToNumber o rq dd roll st
         = Some (st, res1, [Waited (getRequestDelay dd); Gate false]).
Proof.
  intros Hm Hp. unfold serve, route. rewrite Hm, Hp. simpl.
  destruct (randomErrorsMiddleware o roll newResponse) as [res1 next] eqn:Hgate.
  destruct next.
  - apply gate_passed in Hgate. subst res1. left. reflexivity.
  - right. exists res1. split; reflexivity.
Qed.

(** The removal run by a terminate completion always finds its sensor:
    in every reachable state the sensor of a pending completion is in the
    array, exactly once, with no other completion pending for it, and when
    the completion fires it deletes that occurrence and nothing else; the
    sensor objects are not touched.  On an empty array the removal changes
    nothing. *)
Theorem completion_removes_its_sensor (evs : list Event) (k : nat) (r : ref) :
  let st := run ToNumber o initial evs in
  (timers st !! k = Some (SpliceOut r) ->
   0 <= indexOf r (sensors st)
   /\ pending r st = [SpliceOut r]
   /\ NoDup (sensors st)
   /\ (exists i, sensors st !! i = Some r
                /\ sensors (fire k st) = delete i (sensors st))
   /\ (r ∉ sensors (fire k st))
   /\ (forall r', r' <> r -> (r' ∈ sensors (fire k st) <-> r' ∈ sensors st))
   /\ heap (fire k st) = heap st)
  /\ (forall st0, sensors st0 = [] -> run_callback (SpliceOut r) st0 = st0).
Proof.
  intros st. split.
  - intros Hk. pose proof (reachable_Inv evs) as Hinv. fold st in Hinv.
    assert (Hc : SpliceOut r ∈ timers st) by (apply list_elem_of_lookup; eauto).
    pose proof (inv_timers st Hinv _ Hc) as Hlt. simpl in Hlt.
    destruct (lookup_lt_is_Some_2 _ _ Hlt) as [x Hx].
    destruct (consistent_SpliceOut _ _ _ (inv_status st Hinv r x Hx) Hc) as (_ & Hin & Hp).
    pose proof (inv_nodup st Hinv) as Hnd.
    destruct (splice_out_present r st Hin) as (i & Hi & Hdel).
    assert (Hfire : sensors (fire k st) = delete i (sensors st)).
    { unfold fire. rewrite Hk. exact Hdel. }
    split.
    { pose proof (indexOf_bounds r (sensors st)).
      destruct (Z.eq_dec (indexOf r (sensors st)) (-1)) as [E | E]; [| lia].
      apply indexOf_absent in E. contradiction. }
    split; [exact Hp |]. split; [exact Hnd |]. split; [exists i; auto |].
    split; [| split].
    + rewrite Hfire. intros Hmem.
      apply (elem_of_delete_NoDup _ _ r r Hnd Hi) in Hmem. tauto.
    + intros r' Hne. rewrite Hfire, (elem_of_delete_NoDup _ _ r r' Hnd Hi). tauto.
    + unfold fire. rewrite Hk. reflexivity.
  - intros st0 Hempty. destruct st0 as [n h l t]. simpl in *. subst l. reflexivity.
Qed.

(** An accepted terminate, read off the handler. *)
Lemma terminate_accepted (st st1 : State) (idParam : string) :
  changeSensorRoute ToNumber st idParam ACTION_TERMINATE newResponse = (st1, ok_reply) ->
  exists r x,
    find_by_id (heap st) (ToNumber idParam) (sensors st) = Some (r, x)
    /\ accepts (status x) = true
    /\ st1 = actionAfterDelay (SpliceOut r) (update r (set_status STATUS_TERMINATING) st).
Proof.
  unfold changeSensorRoute.
  destruct (number_falsy (ToNumber idParam)); [discriminate |].
  destruct (find_by_id (heap st) (ToNumber idParam) (sensors st)) as [[r x] |];
    [| discriminate].
  fold (accepts (status x)).
  destruct (accepts (status x)) eqn:Ha; simpl; [| discriminate].
  intros [= <-]. exists r, x. auto.
Qed.

(** C4.  Let a terminate be accepted for a sensor in a reachable state.
    Its completion is then pending; whenever it fires, it leaves the
    queue; and from the moment it is no longer pending, in every later
    state of every continuation of the run, the sensor is out of the
    array, no sensor of the array carries its id, and a GET for that id is
    answered 404 "not found".  Until then the sensor stays TERMINATING
    with its completion pending. *)
Theorem terminate_removes_permanently
    (evs0 : list Event) (idParam : string) (st1 : State) :
  changeSensorRoute ToNumber (run ToNumber o initial evs0) idParam ACTION_TERMINATE
                    newResponse = (st1, ok_reply) ->
  exists r x,
    find_by_id (heap (run ToNumber o initial evs0)) (ToNumber idParam)
               (sensors (run ToNumber o initial evs0)) = Some (r, x)
    /\ SpliceOut r ∈ timers st1
    /\ (forall evs,
          (SpliceOut r ∈ timers (run ToNumber o st1 evs)
           /\ r ∈ sensors (run ToNumber o st1 evs))
          \/ Gone r (run ToNumber o st1 evs))
    /\ (forall evs k,
          timers (run ToNumber o st1 evs) !! k = Some (SpliceOut r) ->
          Gone r (run ToNumber o st1 (evs ++ [TimerFires k])))
    /\ (forall evs evs' idParam',
          SpliceOut r ∉ timers (run ToNumber o st1 evs) ->
          number_eqb (id x) (ToNumber idParam') = true ->
          let st2 := run ToNumber o st1 (evs ++ evs') in
          (r ∉ sensors st2)
          /\ (forall r' y, r' ∈ sensors st2 -> heap st2 !! r' = Some y -> id y <> id x)
          /\ getSensorRoute ToNumber st2 idParam' newResponse
             = error_reply 404 "not found"
          /\ (forall rq dd roll,
                method rq = GET -> path rq = ["sensors"; idParam'] ->
                serve ToNumber o rq dd roll st2
                = Some (st2, error_reply 404 "not found",
                        [Waited (getRequestDelay dd); Gate true; Handled])
                \/ exists res1,
                    randomErrorsMiddleware o roll newResponse = (res1, false)
                    /\ serve ToNumber o rq dd roll st2
                       = Some (st2, res1, [Waited (getRequestDelay dd); Gate false]))).
Proof.
  intros Hacc. set (st0 := run ToNumber o initial evs0) in *.
  destruct (terminate_accepted st0 st1 idParam Hacc) as (r & x & Hfind & Hok & Hst1).
  exists r, x. split; [exact Hfind |].
  destruct (find_by_id_Some _ _ _ _ _ Hfind) as (Hin & Hx & Hn).
  assert (Hinv0 : Inv st0) by apply reachable_Inv.
  assert (Hinv1 : Inv st1).
  { subst st1. eapply Inv_action; eauto. }
  set (x1 := set_status STATUS_TERMINATING x).
  assert (Hx1 : heap st1 !! r = Some x1).
  { subst st1. simpl. rewrite list_lookup_alter_eq, Hx. reflexivity. }
  assert (Hstate : forall evs, exists x2,
            heap (run ToNumber o st1 evs) !! r = Some x2
            /\ status x2 = STATUS_TERMINATING /\ id x2 = id x).
  { intros evs. apply (run_terminating evs st1 r x1 Hinv1 Hx1 eq_refl). }
  assert (Hgone : forall evs, SpliceOut r ∉ timers (run ToNumber o st1 evs) ->
            Gone r (run ToNumber o st1 evs)).
  { intros evs Hout. destruct (Hstate evs) as (x2 & Hx2 & Hterm2 & _).
    destruct (Inv_terminated _ r x2 (run_Inv evs st1 Hinv1) Hx2 Hterm2)
      as [[H _] | [_ H]]; [contradiction |].
    split; [eauto |]. split; assumption. }
  split; [| split; [| split]].
  - subst st1. simpl. apply elem_of_app. right. apply list_elem_of_here.
  - intros evs. destruct (Hstate evs) as (x2 & Hx2 & Hterm2 & _).
    destruct (Inv_terminated _ r x2 (run_Inv evs st1 Hinv1) Hx2 Hterm2)
      as [H | [H _]]; [left; exact H | right; apply Hgone, H].
  - intros evs k Hk. apply Hgone. rewrite run_app. simpl.
    set (st2 := run ToNumber o st1 evs) in *.
    assert (Hinv2 : Inv st2) by (apply run_Inv, Hinv1).
    destruct (Hstate evs) as (x2 & Hx2 & _). fold st2 in Hx2.
    assert (Hc : SpliceOut r ∈ timers st2) by (apply list_elem_of_lookup; eauto).
    destruct (consistent_SpliceOut _ _ _ (inv_status st2 Hinv2 r x2 Hx2) Hc)
      as (_ & _ & Hp).
    destruct (filter_delete_only (fun c => target c = r) _ _ _ _ Hk eq_refl Hp)
      as [_ Hnil].
    unfold fire. rewrite Hk. simpl. intros Hmem.
    eapply (filter_nil_not_elem_of (fun c => target c = r)); [exact Hnil | | exact Hmem].
    reflexivity.
  - intros evs evs' idParam' Hout Hn' st2.
    assert (Hg2 : Gone r st2).
    { subst st2. rewrite run_app. apply run_Gone; [apply run_Inv, Hinv1 | apply Hgone, Hout]. }
    assert (Hinv2 : Inv st2) by (apply run_Inv, Hinv1).
    destruct (Hstate (evs ++ evs')) as (x2 & Hx2 & _ & Hid2). fold st2 in Hx2.
    rewrite <- Hid2 in Hn'.
    destruct (Gone_not_found st2 r x2 idParam' Hinv2 Hg2 Hx2 Hn') as [Hids Hget].
    split; [apply Hg2 |].
    split; [intros r' y Hr' Hy; rewrite <- Hid2; eapply Hids; eauto |].
    split; [exact Hget |].
    intros rq dd roll Hm Hp. rewrite <- Hget. apply serve_get_sensor; assumption.
Qed.

End Traces.

(** Two sensors created one after the other, with the first one activated
    and terminated in between, get the ids 1 and 2. *)
Lemma ids_strictly_increasing_witness :
  1 <= id (sensor_one STATUS_INITIALIZING)
  /\ id (sensor_one STATUS_INITIALIZING)
     < id {| id := 2; frequency := VNum (Fin 2);
             status := STATUS_INITIALIZING; measurement := VNull |}.
Proof.
  apply (ids_strictly_increasing digits_ToNumber reliable
           [] [TimerFires 0; Serve (action_request "terminate") 0.5 0.5; TimerFires 0]
           create_request create_request 0.5 0.5 0.5 0.5
           st_created
           {| nextId := 3;
              heap := [sensor_one STATUS_TERMINATING;
                       {| id := 2; frequency := VNum (Fin 2);
                          status := STATUS_INITIALIZING; measurement := VNull |}];
              sensors := [1%nat]; timers := [SetActive 1%nat] |}
           [Waited (getRequestDelay 0.5); Gate true; Handled]
           [Waited (getRequestDelay 0.5); Gate true; Handled]
           (sensor_one STATUS_INITIALIZING)
           {| id := 2; frequency := VNum (Fin 2);
              status := STATUS_INITIALIZING; measurement := VNull |});
    reflexivity.
Defined.

(** Sensor 1 is created, activated and terminated: the completion of the
    terminate is pending on the sensor that the id 1 denotes. *)
Lemma terminate_removes_witness :
  exists r x,
    find_by_id (heap st_active) (digits_ToNumber "1") (sensors st_active) = Some (r, x)
    /\ SpliceOut r
       ∈ timers (fst (changeSensorRoute digits_ToNumber st_active "1" ACTION_TERMINATE
                                        newResponse)).
Proof.
  destruct (terminate_removes_permanently digits_ToNumber reliable
              [Serve create_request 0.5 0.5; TimerFires 0] "1"
              (fst (changeSensorRoute digits_ToNumber st_active "1" ACTION_TERMINATE
                                      newResponse))
              eq_refl)
    as (r & x & Hfind & Hpending & _).
  exists r, x. split; [exact Hfind | exact Hpending].
Defined.

(** The same scenario, run: after the completion has fired, a GET for the
    id 1 is answered 404, also after further sensors were created. *)
Example terminated_then_get :
  getSensorRoute digits_ToNumber
    (run digits_ToNumber reliable st_active
         [Serve (action_request "terminate") 0.5 0.5; TimerFires 0;
          Serve create_request 0.5 0.5])
    "1" newResponse
  = error_reply 404 "not found".
Proof. reflexivity. Qed.

(** The completion of the terminate of sensor 1, pending at position 0,
    finds the sensor at position 0 of the array. *)
Lemma completion_removes_witness :
  0 <= indexOf 0%nat
         (sensors (run digits_ToNumber reliable initial
                       [Serve create_request 0.5 0.5; TimerFires 0;
                        Serve (action_request "terminate") 0.5 0.5])).
Proof.
  apply (proj1 (completion_removes_its_sensor digits_ToNumber reliable
                  [Serve create_request 0.5 0.5; TimerFires 0;
                   Serve (action_request "terminate") 0.5 0.5] 0%nat 0%nat)).
  reflexivity.
Defined.

(** ** Removal, against its specification *)



Section Removal.

Variable ToNumber : string -> number.
Variable o : Options.



End Removal.


(** * Further properties of the code *)

(** ** Delays and measurements *)

(** X1.  For draws of [0,1) the action delay is at least 2000 and at most
    5000: a creation, restart or termination completes no sooner than 2 s
    and no later than 5 s after its request.  It is longer than every
    request delay, and a larger draw never gives a shorter delay. *)
Theorem getActionDelay_range (r r' : Q) :
  (0 <= r)%Q -> (r < 1)%Q -> (0 <= r')%Q -> (r' < 1)%Q ->
  (2000 <= getActionDelay r)%Q /\ (getActionDelay r <= 5000)%Q
  /\ (getRequestDelay r' < getActionDelay r)%Q
  /\ ((r <= r')%Q -> (getActionDelay r <= getActionDelay r')%Q).
Proof.
  intros H0 H1 H0' H1'.
  unfold getActionDelay, getRequestDelay, DELAY_ACTION_MIN, DELAY_ACTION_MAX,
    DELAY_REQ_MIN, DELAY_REQ_MAX.
  unfold Qle, Qlt, Qplus, Qmult, Qminus, Qopp in *; simpl in *.
  split; [nia |]. split; [nia |]. split; [nia |]. intros Hle. nia.
Qed.

Lemma getActionDelay_range_witness :
  (2000 <= getActionDelay 0.5)%Q /\ (getActionDelay 0.5 <= 5000)%Q.
Proof.
  assert (H0 : (0 <= 0.5)%Q) by (unfold Qle; simpl; lia).
  assert (H1 : (0.5 < 1)%Q) by (unfold Qlt; simpl; lia).
  destruct (getActionDelay_range 0.5 0.5 H0 H1 H0 H1) as (A & B & _).
  split; assumption.
Defined.

(** [getMeasurement] maps a draw of [0,1) into [0, 100). *)
Lemma getMeasurement_range (r : Q) :
  (0 <= r)%Q -> (r < 1)%Q ->
  exists q, getMeasurement r = VNum (Fin q) /\ (0 <= q)%Q /\ (q < 100)%Q.
Proof.
  intros H0 H1. exists (r * 100)%Q. split; [reflexivity |].
  unfold Qle, Qlt, Qmult in *; simpl in *. split; nia.
Qed.

(** ** The gate in unreliable mode *)

(** X2.  In unreliable mode the successive subtractions amount to four
    bands of width 0.05 on the draw: below 0.05 the request hangs, below
    0.10 the status 502 is recorded, below 0.15 the connection is
    destroyed, below 0.20 the text error is sent with status 500, and from
    0.20 on the request goes to the handler with its response untouched. *)
Theorem gate_unreliable_bands (o : Options) (roll : Q) (res : Response) :
  unreliable o = true ->
  randomErrorsMiddleware o roll res
  = if Qltb roll 0.05 then (res, false)
    else if Qltb roll 0.10 then (res_status 502 res, false)
    else if Qltb roll 0.15 then (res_connection_destroy res, false)
    else if Qltb roll 0.20
         then (res_send ERROR_TEXT_CONTENT (res_status 500 res), false)
    else (res, true).
Proof.
  intros Hu. rewrite gate_is_selection.
  assert (E : configured_rates o = configured_rates (mkOptions true false)).
  { unfold configured_rates, ERROR_HANG_RATE, ERROR_502_RATE, ERROR_CLOSE_RATE,
      ERROR_TEXT_ERROR. rewrite Hu. reflexivity. }
  rewrite E, gate_bands.
  destruct (Qltb roll 0.05); [reflexivity |].
  destruct (Qltb roll 0.10); [reflexivity |].
  destruct (Qltb roll 0.15); [reflexivity |].
  destruct (Qltb roll 0.20); reflexivity.
Qed.

Lemma gate_unreliable_bands_witness :
  randomErrorsMiddleware (mkOptions true true) 0.12 newResponse
  = (res_connection_destroy newResponse, false).
Proof.
  rewrite (gate_unreliable_bands (mkOptions true true) 0.12 newResponse eq_refl).
  reflexivity.
Defined.

(** ** Replies and state changes of served requests *)

Section Served.

Variable ToNumber : string -> number.
Variable o : Options.

(** What the route table says about the handler of a request. *)
Lemma route_handler (rq : Request) (ms : list Middleware) (h : Handler) :
  route rq = Some (ms, h) ->
  (h = IndexRoute -> path rq = [])
  /\ (method rq = GET -> h <> CreateSensor /\ forall i a, h <> ChangeSensor i a).
Proof.
  unfold route. intros H.
  repeat case_match; simplify_eq; split; intros; try discriminate; try reflexivity;
    split; intros; discriminate.
Qed.

(** Every handler answers: the response is sent, on an intact connection,
    with one of the codes 200, 400 and 404; all but the index route answer
    in JSON; a reply other than 200 is an [{error: ...}] object and leaves
    the state as it was; and only the create and the action handler ever
    change the state. *)
Lemma handler_replies (h : Handler) (st : State) (rq : Request) :
  let out := run_handler ToNumber h st rq newResponse in
  finished (snd out) = true /\ destroyed (snd out) = false
  /\ handler_code (statusCode (snd out)) = true
  /\ (h <> IndexRoute -> exists v, payload (snd out) = Some (Json v))
  /\ (statusCode (snd out) <> 200 ->
      fst out = st /\ exists msg, payload (snd out) = Some (Json (error_json msg)))
  /\ (h <> CreateSensor -> (forall i a, h <> ChangeSensor i a) -> fst out = st).
Proof.
  destruct h as [| | | i | i a |]; simpl.
  - repeat split; try reflexivity; intros; congruence.
  - repeat split; try reflexivity; intros; try congruence. eexists; reflexivity.
  - unfold createSensorRoute.
    destruct (Number_isNaN (body_frequency (body rq)));
      [| destruct (Number_isInteger (body_frequency (body rq)))]; simpl;
      repeat split; try reflexivity; intros; try congruence;
      eexists; reflexivity.
  - unfold getSensorRoute.
    destruct (number_falsy (ToNumber i));
      [| destruct (find_by_id (heap st) (ToNumber i) (sensors st)) as [[r x] |]];
      simpl; repeat split; try reflexivity; intros; try congruence;
      eexists; reflexivity.
  - unfold changeSensorRoute.
    destruct (number_falsy (ToNumber i));
      [| destruct (find_by_id (heap st) (ToNumber i) (sensors st)) as [[r x] |];
         [destruct (bool_decide (status x ∈ [STATUS_ACTIVE; STATUS_FAILED]));
          [destruct (String.eqb a ACTION_RESTART);
           [| destruct (String.eqb a ACTION_TERMINATE)] |] |]];
      simpl; repeat split; try reflexivity; intros; try congruence;
      try (eexists; reflexivity); exfalso; eauto.
  - repeat split; try reflexivity; intros; try congruence. eexists; reflexivity.
Qed.

(** A served request was either stopped by the gate, with nothing run
    after it, or handled on a fresh response. *)
Lemma serve_cases (rq : Request) (dd roll : Q) (st st' : State)
    (res : Response) (log : list Stage) :
  serve ToNumber o rq dd roll st = Some (st', res, log) ->
  exists ms h, route rq = Some (ms, h)
    /\ ((st' = st /\ randomErrorsMiddleware o roll newResponse = (res, false)
         /\ log = [Waited (getRequestDelay dd); Gate false])
        \/ ((st', res) = run_handler ToNumber h st rq newResponse
            /\ Handled ∈ log
            /\ (ms = [] \/ randomErrorsMiddleware o roll newResponse = (newResponse, true)))).
Proof.
  unfold serve. destruct (route rq) as [[ms h] |] eqn:Hroute; [| discriminate].
  intros H. exists ms, h. split; [reflexivity |].
  destruct (route_chain _ _ _ Hroute) as [[-> _] | [-> _]]; simpl in H.
  - destruct (run_handler ToNumber h st rq newResponse) as [st1 res1] eqn:Hh.
    injection H as <- <- <-. right. split; [reflexivity |].
    split; [apply list_elem_of_here | left; reflexivity].
  - destruct (randomErrorsMiddleware o roll newResponse) as [res1 next] eqn:Hgate.
    destruct next.
    + pose proof (gate_passed o _ _ _ Hgate) as ->.
      destruct (run_handler ToNumber h st rq newResponse) as [st1 res2] eqn:Hh.
      injection H as <- <- <-. right. split; [reflexivity |].
      split; [| right; reflexivity].
      apply list_elem_of_further, list_elem_of_further, list_elem_of_here.
    + injection H as <- <- <-. left. auto.
Qed.

(** X3.  In reliable mode every request that matches a route is answered:
    its handler runs, the response is sent on an intact connection with
    status 200, 400 or 404, and it carries a JSON body on every route but
    the index route, which sends its greeting text. *)
Theorem reliable_always_answers (rq : Request) (dd roll : Q) (st st' : State)
    (res : Response) (log : list Stage) :
  unreliable o = false -> (0 <= roll)%Q ->
  serve ToNumber o rq dd roll st = Some (st', res, log) ->
  Handled ∈ log
  /\ finished res = true /\ destroyed res = false
  /\ handler_code (statusCode res) = true
  /\ (path rq <> [] -> exists v, payload res = Some (Json v))
  /\ (path rq = [] -> payload res = Some (Text "Greetings from space!")).
Proof.
  intros Hrel Hroll Hserve.
  destruct (serve_cases _ _ _ _ _ _ _ Hserve) as (ms & h & Hroute & Hcase).
  assert (Hpass : randomErrorsMiddleware o roll newResponse = (newResponse, true)).
  { rewrite gate_is_selection, (select_all_zero (configured_rates o) roll); auto.
    rewrite reliable_rates_zero by exact Hrel. repeat constructor. }
  destruct Hcase as [(_ & Hstop & _) | (Hh & Hlog & _)]; [congruence |].
  pose proof (handler_replies h st rq) as Hrep. cbv zeta in Hrep.
  rewrite <- Hh in Hrep. simpl in Hrep.
  destruct Hrep as (Hfin & Hdes & Hcode & Hjson & _).
  destruct (route_handler _ _ _ Hroute) as [Hidx _].
  split; [exact Hlog |]. split; [exact Hfin |]. split; [exact Hdes |].
  split; [exact Hcode |]. split.
  - intros Hpath. apply Hjson. intros ->. auto.
  - intros Hpath. unfold route in Hroute. rewrite Hpath in Hroute.
    destruct (method rq); [| discriminate]. injection Hroute as <- <-.
    simpl in Hh. injection Hh as _ ->. reflexivity.
Qed.

(** X4.  A request changes the state only if it is a POST that its handler
    answers with 200: a GET, a request that the gate stops, and a request
    answered with any other status leave the id counter, the sensor
    objects, the array and the pending timers exactly as they were; a
    stopped request runs no handler, and a handler's error reply is an
    [{error: ...}] object. *)
Theorem only_accepted_posts_change_state (rq : Request) (dd roll : Q)
    (st st' : State) (res : Response) (log : list Stage) :
  serve ToNumber o rq dd roll st = Some (st', res, log) ->
  (method rq = GET -> st' = st)
  /\ (Handled ∉ log ->
      st' = st /\ randomErrorsMiddleware o roll newResponse = (res, false))
  /\ (statusCode res <> 200 -> st' = st)
  /\ (Handled ∈ log -> statusCode res <> 200 ->
      exists msg, payload res = Some (Json (error_json msg))).
Proof.
  intros Hserve.
  destruct (serve_cases _ _ _ _ _ _ _ Hserve) as (ms & h & Hroute & Hcase).
  pose proof (handler_replies h st rq) as Hrep. cbv zeta in Hrep.
  destruct (route_handler _ _ _ Hroute) as [_ Hget].
  destruct Hcase as [(-> & Hstop & ->) | (Hh & Hlog & _)].
  - repeat split; auto.
    intros Hin. exfalso.
    apply elem_of_cons in Hin as [Hin | Hin]; [discriminate |].
    apply list_elem_of_singleton in Hin. discriminate.
  - rewrite <- Hh in Hrep. simpl in Hrep.
    destruct Hrep as (_ & _ & _ & _ & Herr & Hread).
    repeat split.
    + intros Hm. destruct (Hget Hm) as [H1 H2]. auto.
    + contradiction.
    + contradiction.
    + intros Hc. apply Herr, Hc.
    + intros _ Hc. apply Herr, Hc.
Qed.

End Served.

(** A request for the list of ids in reliable mode is answered. *)
Lemma reliable_always_answers_witness :
  exists v, payload (res_json (VArr []) newResponse) = Some (Json v).
Proof.
  assert (Hroll : (0 <= 0.5)%Q) by (unfold Qle; simpl; lia).
  destruct (reliable_always_answers digits_ToNumber reliable
              {| method := GET; path := ["sensor-ids"]; body := BodyObject [] |}
              0.5 0.5 initial initial (res_json (VArr []) newResponse)
              [Waited (getRequestDelay 0.5); Gate true; Handled]
              eq_refl Hroll eq_refl) as (_ & _ & _ & _ & H & _).
  apply H. discriminate.
Defined.

(** An unknown action on the INITIALIZING sensor 1 is answered 400 and
    changes nothing. *)
Lemma only_accepted_posts_witness :
  fst (fst (run_chain digits_ToNumber reliable [RequestDelay; RandomErrors]
                      (ChangeSensor "1" "explode") 0.5 0.5 st_created
                      (action_request "explode") newResponse))
  = st_created.
Proof.
  destruct (only_accepted_posts_change_state digits_ToNumber reliable
              (action_request "explode") 0.5 0.5 st_created
              (fst (fst (run_chain digits_ToNumber reliable [RequestDelay; RandomErrors]
                                   (ChangeSensor "1" "explode") 0.5 0.5 st_created
                                   (action_request "explode") newResponse)))
              (error_reply 400 "sensor status is INITIALIZING")
              [Waited (getRequestDelay 0.5); Gate true; Handled] eq_refl)
    as (_ & _ & H & _).
  apply H. discriminate.
Defined.

(** ** The schedulers, draw by draw *)

Lemma failures_loop_off (o : Options) (l : list ref) :
  failSensors o = false ->
  forall (d : draws) (h : list Sensor),
    (forall k, (0 <= d k)%Q) -> failures_loop o l d h = h.
Proof.
  intros Hoff. induction l as [| a l IH]; intros d h Hd; simpl; [reflexivity |].
  assert (Hnext : forall k, (0 <= next_draws d k)%Q) by (intros k; apply Hd).
  destruct (h !! a) as [y |]; [| apply IH, Hd].
  destruct (decide (status y = STATUS_ACTIVE)); [| apply IH, Hd].
  assert (E : Qltb (d 0%nat) (FAILURE_RATE o) = false).
  { apply Qltb_ge. unfold FAILURE_RATE. rewrite Hoff. apply Hd. }
  rewrite E. apply IH, Hnext.
Qed.

(** X5.  Without the fail-sensors option the failure scheduler does
    nothing at all: the failure rate is 0, no draw of [0,1) is below it,
    and a tick leaves the whole state as it was. *)
Theorem failures_off_noop (o : Options) (d : draws) (st : State) :
  failSensors o = false -> (forall k, (0 <= d k)%Q) ->
  triggerIntermittentFailures o d st = st.
Proof.
  intros Hoff Hd. unfold triggerIntermittentFailures.
  rewrite (failures_loop_off o (sensors st) Hoff d (heap st) Hd).
  destruct st; reflexivity.
Qed.

Lemma failures_off_noop_witness :
  triggerIntermittentFailures reliable (fun _ => 0.1%Q) st_active = st_active.
Proof.
  apply (failures_off_noop reliable (fun _ => 0.1%Q) st_active); [reflexivity |].
  intros k. unfold Qle; simpl; lia.
Defined.

Lemma count_active_alter (f : Sensor -> Sensor) (a : ref) (h : list Sensor) (l : list ref) :
  a ∉ l -> count_active (alter f a h) l = count_active h l.
Proof.
  induction l as [| b l IH]; intros Ha; simpl; [reflexivity |].
  apply not_elem_of_cons in Ha as [Hne Ha].
  rewrite list_lookup_alter_ne by exact Hne. rewrite (IH Ha). reflexivity.
Qed.

(** A loop leaves alone what its list does not reference. *)
Lemma failures_loop_outside (o : Options) (l : list ref) (d : draws)
    (h : list Sensor) (r : ref) :
  r ∉ l -> failures_loop o l d h !! r = h !! r.
Proof.
  intros Hout. destruct (h !! r) as [x |] eqn:Hr.
  - destruct (failures_loop_spec o l d h r x Hr) as (x' & Hx' & [-> | (_ & Hin & _)]);
      [exact Hx' | contradiction].
  - apply lookup_ge_None. rewrite failures_loop_length. apply lookup_ge_None, Hr.
Qed.

Lemma measurements_loop_outside (l : list ref) (d : draws) (h : list Sensor) (r : ref) :
  r ∉ l -> measurements_loop l d h !! r = h !! r.
Proof.
  intros Hout. destruct (h !! r) as [x |] eqn:Hr.
  - destruct (measurements_loop_spec l d h r x Hr)
      as (x' & Hx' & [-> | (_ & Hin & _)] & _); [exact Hx' | contradiction].
  - apply lookup_ge_None. rewrite measurements_loop_length. apply lookup_ge_None, Hr.
Qed.

Lemma failures_loop_at (o : Options) (pre : list ref) :
  forall (post : list ref) (r : ref) (d : draws) (h : list Sensor) (x : Sensor),
    NoDup (pre ++ r :: post) -> h !! r = Some x -> status x = STATUS_ACTIVE ->
    failures_loop o (pre ++ r :: post) d h !! r
    = Some (if Qltb (d (count_active h pre)) (FAILURE_RATE o)
            then set_status STATUS_FAILED x else x).
Proof.
  induction pre as [| a pre IH]; intros post r d h x Hnd Hr Hact.
  - simpl in *. apply NoDup_cons in Hnd as [Hout _]. rewrite Hr.
    destruct (decide (status x = STATUS_ACTIVE)); [| contradiction].
    destruct (Qltb (d 0%nat) (FAILURE_RATE o)).
    + rewrite failures_loop_outside by exact Hout.
      rewrite list_lookup_alter_eq, Hr. reflexivity.
    + rewrite failures_loop_outside by exact Hout. exact Hr.
  - simpl in Hnd. apply NoDup_cons in Hnd as [Ha Hnd].
    assert (Hne : a <> r).
    { intros ->. apply Ha. apply elem_of_app. right. apply list_elem_of_here. }
    assert (Hpre : a ∉ pre) by (intros H; apply Ha, elem_of_app; left; exact H).
    simpl. destruct (h !! a) as [y |] eqn:Hy; [| apply IH; assumption].
    destruct (decide (status y = STATUS_ACTIVE)); [| apply IH; assumption].
    destruct (Qltb (d 0%nat) (FAILURE_RATE o)).
    + rewrite (IH post r (next_draws d) _ x Hnd); [| | exact Hact].
      * rewrite count_active_alter by exact Hpre. reflexivity.
      * rewrite list_lookup_alter_ne by exact Hne. exact Hr.
    + rewrite (IH post r (next_draws d) h x Hnd Hr Hact). reflexivity.
Qed.

Lemma measurements_loop_at (pre : list ref) :
  forall (post : list ref) (r : ref) (d : draws) (h : list Sensor) (x : Sensor),
    NoDup (pre ++ r :: post) -> h !! r = Some x -> status x = STATUS_ACTIVE ->
    measurements_loop (pre ++ r :: post) d h !! r
    = Some (set_measurement (getMeasurement (d (count_active h pre))) x).
Proof.
  induction pre as [| a pre IH]; intros post r d h x Hnd Hr Hact.
  - simpl in *. apply NoDup_cons in Hnd as [Hout _]. rewrite Hr.
    destruct (decide (status x = STATUS_ACTIVE)); [| contradiction].
    rewrite measurements_loop_outside by exact Hout.
    rewrite list_lookup_alter_eq, Hr. reflexivity.
  - simpl in Hnd. apply NoDup_cons in Hnd as [Ha Hnd].
    assert (Hne : a <> r).
    { intros ->. apply Ha. apply elem_of_app. right. apply list_elem_of_here. }
    assert (Hpre : a ∉ pre) by (intros H; apply Ha, elem_of_app; left; exact H).
    simpl. destruct (h !! a) as [y |] eqn:Hy; [| apply IH; assumption].
    destruct (decide (status y = STATUS_ACTIVE)); [| apply IH; assumption].
    rewrite (IH post r (next_draws d) _ x Hnd); [| | exact Hact].
    + rewrite count_active_alter by exact Hpre. reflexivity.
    + rewrite list_lookup_alter_ne by exact Hne. exact Hr.
Qed.

(** X6.  On a failure tick every ACTIVE sensor of the array gets a draw of
    its own, taken in array order: the sensor that has [n] ACTIVE sensors
    before it in the array is judged on the [n]-th draw, and it becomes
    FAILED exactly when that draw is below the failure rate; its other
    fields are kept, and with a draw at or above the rate it is left as it
    was.  (The array holds no sensor twice.) *)
Theorem failure_tick_by_draw (o : Options) (d : draws) (st : State)
    (pre post : list ref) (r : ref) (x : Sensor) :
  NoDup (sensors st) -> sensors st = (pre ++ r :: post)%list ->
  heap st !! r = Some x -> status x = STATUS_ACTIVE ->
  heap (triggerIntermittentFailures o d st) !! r
  = Some (if Qltb (d (count_active (heap st) pre)) (FAILURE_RATE o)
          then set_status STATUS_FAILED x else x).
Proof.
  intros Hnd Hl Hr Hact. simpl. rewrite Hl in Hnd |- *.
  apply failures_loop_at; assumption.
Qed.

(** X7.  On a measurement tick every ACTIVE sensor of the array gets a
    fresh measurement from a draw of its own, taken in array order: the
    sensor with [n] ACTIVE sensors before it gets 100 times the [n]-th
    draw, a number of [0, 100) for a draw of [0,1); its id, frequency and
    status are kept. *)
Theorem measurement_tick_by_draw (d : draws) (st : State)
    (pre post : list ref) (r : ref) (x : Sensor) :
  NoDup (sensors st) -> sensors st = (pre ++ r :: post)%list ->
  heap st !! r = Some x -> status x = STATUS_ACTIVE ->
  let n := count_active (heap st) pre in
  heap (triggerMeasurements d st) !! r
  = Some {| id := id x; frequency := frequency x; status := status x;
            measurement := VNum (Fin (d n * 100)%Q) |}
  /\ ((0 <= d n)%Q -> (d n < 1)%Q -> (0 <= d n * 100)%Q /\ (d n * 100 < 100)%Q).
Proof.
  intros Hnd Hl Hr Hact n. split.
  - simpl. rewrite Hl in Hnd |- *.
    rewrite (measurements_loop_at pre post r d (heap st) x Hnd Hr Hact). reflexivity.
  - intros H0 H1. unfold Qle, Qlt, Qmult in *; simpl in *. split; nia.
Qed.

(** With the fail-sensors option, of two ACTIVE sensors the second one,
    whose draw 0.1 is below 0.2, becomes FAILED. *)
Lemma failure_tick_witness :
  heap (triggerIntermittentFailures (mkOptions false true) two_draws st_two_active)
    !! 1%nat
  = Some (sensor_two STATUS_FAILED).
Proof.
  rewrite (failure_tick_by_draw (mkOptions false true) two_draws st_two_active
             [0%nat] [] 1%nat (sensor_two STATUS_ACTIVE));
    [reflexivity | | reflexivity | reflexivity | reflexivity].
  repeat constructor; intros H; repeat (apply elem_of_cons in H as [H | H]; [discriminate |]);
    apply elem_of_nil in H; exact H.
Defined.

(** The second of two ACTIVE sensors gets the measurement 100 x 0.1. *)
Lemma measurement_tick_witness :
  heap (triggerMeasurements two_draws st_two_active) !! 1%nat
  = Some {| id := 2; frequency := VNum (Fin 2); status := STATUS_ACTIVE;
            measurement := VNum (Fin (0.1 * 100)%Q) |}.
Proof.
  apply (measurement_tick_by_draw two_draws st_two_active
           [0%nat] [] 1%nat (sensor_two STATUS_ACTIVE));
    [| reflexivity | reflexivity | reflexivity].
  repeat constructor; intros H; repeat (apply elem_of_cons in H as [H | H]; [discriminate |]);
    apply elem_of_nil in H; exact H.
Defined.

(** ** Looking sensors up *)

Section Lookup.

Variable ToNumber : string -> number.
Variable o : Options.

(** In a consistent state the lookup by id finds a sensor of the array by
    its id: no other sensor of the array has it. *)
Lemma find_registered (st : State) (n : number) (r : ref) (x : Sensor) :
  Inv st -> r ∈ sensors st -> heap st !! r = Some x ->
  number_eqb (id x) n = true ->
  find_by_id (heap st) n (sensors st) = Some (r, x).
Proof.
  intros Hinv Hin Hx Hn.
  destruct (find_by_id (heap st) n (sensors st)) as [[r' y] |] eqn:Hf.
  - apply find_by_id_Some in Hf as (Hin' & Hy & Hn').
    destruct (number_eqb_Z _ _ Hn) as [_ Huniq]. apply Huniq in Hn'.
    destruct (lt_eq_lt_dec r' r) as [[Hlt | ->] | Hgt].
    + pose proof (inv_order st Hinv r' r y x Hy Hx Hlt). lia.
    + congruence.
    + pose proof (inv_order st Hinv r r' x y Hx Hy Hgt). lia.
  - pose proof (find_by_id_None _ _ _ Hf r x Hin Hx). congruence.
Qed.

Lemma registered_not_falsy (st : State) (n : number) (r : ref) (x : Sensor) :
  Inv st -> heap st !! r = Some x -> number_eqb (id x) n = true ->
  number_falsy n = false.
Proof.
  intros Hinv Hx Hn. destruct (number_eqb_Z _ _ Hn) as [-> _].
  pose proof (inv_next st Hinv r x Hx). apply Z.eqb_neq. lia.
Qed.

(** X8.  In every reachable state a GET by id is answered by what the id
    parameter converts to: 400 "invalid id" for 0 or NaN; the current
    state of the sensor, with status 200, when a sensor of the array has
    that id (there is only one); 404 "not found" when none has. *)
Theorem get_by_id (evs : list Event) (idParam : string) :
  let st := run ToNumber o initial evs in
  let n := ToNumber idParam in
  (number_falsy n = true ->
   getSensorRoute ToNumber st idParam newResponse = error_reply 400 "invalid id")
  /\ (forall r x, r ∈ sensors st -> heap st !! r = Some x ->
       number_eqb (id x) n = true ->
       getSensorRoute ToNumber st idParam newResponse
       = res_json (sensor_json x) newResponse)
  /\ (number_falsy n = false ->
      (forall r x, r ∈ sensors st -> heap st !! r = Some x ->
         number_eqb (id x) n = false) ->
      getSensorRoute ToNumber st idParam newResponse = error_reply 404 "not found").
Proof.
  intros st n. pose proof (reachable_Inv ToNumber o evs) as Hinv. fold st in Hinv.
  unfold getSensorRoute. fold n. split; [| split].
  - intros ->. reflexivity.
  - intros r x Hin Hx Hn.
    rewrite (registered_not_falsy st n r x Hinv Hx Hn).
    rewrite (find_registered st n r x Hinv Hin Hx Hn). reflexivity.
  - intros -> Hnone. rewrite find_by_id_absent by exact Hnone. reflexivity.
Qed.

(** X9.  Create, then get: in every reachable state, when a create request
    is accepted, a GET for the id it was given is answered with the very
    reply of the create: the new sensor, INITIALIZING and without a
    measurement. *)
Theorem create_then_get (evs : list Event) (b : Body) (idParam : string) :
  let st := run ToNumber o initial evs in
  Number_isInteger (body_frequency b) = true ->
  number_eqb (nextId st) (ToNumber idParam) = true ->
  let out := createSensorRoute st b newResponse in
  getSensorRoute ToNumber (fst out) idParam newResponse = snd out
  /\ snd out
     = res_json (sensor_json {| id := nextId st; frequency := body_frequency b;
                                status := STATUS_INITIALIZING;
                                measurement := VNull |}) newResponse.
Proof.
  intros st Hint Hn out. subst out.
  pose proof (reachable_Inv ToNumber o evs) as Hinv. fold st in Hinv.
  rewrite (create_integer st b newResponse Hint). simpl fst. simpl snd.
  split; [| reflexivity].
  set (new := {| id := nextId st; frequency := body_frequency b;
                 status := STATUS_INITIALIZING; measurement := VNull |}).
  set (st' := {| nextId := nextId st + 1; heap := heap st ++ [new];
                 sensors := sensors st ++ [length (heap st)];
                 timers := timers st ++ [SetActive (length (heap st))] |}).
  assert (Hinv' : Inv st') by (apply Inv_create, Hinv).
  assert (Hx : heap st' !! length (heap st) = Some new).
  { simpl. apply list_lookup_middle. reflexivity. }
  assert (Hin : length (heap st) ∈ sensors st').
  { simpl. apply elem_of_app. right. apply list_elem_of_here. }
  unfold getSensorRoute.
  rewrite (registered_not_falsy st' _ _ new Hinv' Hx Hn).
  rewrite (find_registered st' _ _ new Hinv' Hin Hx Hn). reflexivity.
Qed.

(** X10.  In every reachable state a sensor of the array accepts an action
    exactly when no completion is pending for it; while a creation, a
    restart or a termination is still pending, every action request on the
    sensor, whatever its name, is answered 400 with the current status and
    changes nothing. *)
Theorem pending_action_rejected
    (evs : list Event) (idParam action : string) (r : ref) (x : Sensor) :
  let st := run ToNumber o initial evs in
  number_falsy (ToNumber idParam) = false ->
  find_by_id (heap st) (ToNumber idParam) (sensors st) = Some (r, x) ->
  (accepts (status x) = true <-> pending r st = [])
  /\ (pending r st <> [] ->
      changeSensorRoute ToNumber st idParam action newResponse
      = (st, error_reply 400 (status_error (status x))))
  /\ (length (pending r st) <= 1)%nat.
Proof.
  intros st Hid Hfind.
  pose proof (reachable_Inv ToNumber o evs) as Hinv. fold st in Hinv.
  destruct (find_by_id_Some _ _ _ _ _ Hfind) as (Hin & Hx & _).
  pose proof (inv_status st Hinv r x Hx) as Hcons.
  assert (Hiff : accepts (status x) = true <-> pending r st = []).
  { rewrite accepts_spec. destruct (status x); simpl in Hcons.
    - destruct Hcons as [_ ->]. split; [intros [H | H]; discriminate | discriminate].
    - destruct Hcons as [_ ->]. split; auto.
    - destruct Hcons as [_ ->]. split; auto.
    - destruct Hcons as [_ ->]. split; [intros [H | H]; discriminate | discriminate].
    - destruct Hcons as [[_ ->] | [Hout _]]; [| contradiction].
      split; [intros [H | H]; discriminate | discriminate]. }
  split; [exact Hiff |]. split.
  - intros Hp. apply (change_bad_status ToNumber st idParam action r x Hid Hfind).
    destruct (accepts (status x)) eqn:E; [| reflexivity].
    exfalso. apply Hp, Hiff. reflexivity.
  - destruct (status x); simpl in Hcons;
      repeat match goal with
             | H : _ /\ _ |- _ => destruct H as [_ H]
             | H : _ \/ _ |- _ => destruct H as [H | H]
             end; rewrite Hcons; simpl; lia.
Qed.

(** X11.  An accepted restart marks the sensor RESTARTING and queues its
    completion last; when that completion fires next, the state is the
    one before the restart except that the sensor is ACTIVE: id, frequency
    and measurement are kept, the array and the other timers are as they
    were, and a FAILED sensor is ACTIVE again. *)
Theorem restart_then_completion (st : State) (idParam : string) (r : ref) (x : Sensor) :
  number_falsy (ToNumber idParam) = false ->
  find_by_id (heap st) (ToNumber idParam) (sensors st) = Some (r, x) ->
  status x = STATUS_ACTIVE \/ status x = STATUS_FAILED ->
  let out := changeSensorRoute ToNumber st idParam ACTION_RESTART newResponse in
  snd out = ok_reply
  /\ heap (fst out) !! r = Some (set_status STATUS_RESTARTING x)
  /\ timers (fst out) !! length (timers st) = Some (SetActive r)
  /\ fire (length (timers st)) (fst out) = update r (set_status STATUS_ACTIVE) st
  /\ heap (fire (length (timers st)) (fst out)) !! r = Some (set_status STATUS_ACTIVE x).
Proof.
  intros Hid Hfind Hst out. subst out.
  destruct (find_by_id_Some _ _ _ _ _ Hfind) as (_ & Hx & _).
  apply accepts_spec in Hst.
  rewrite (change_restart ToNumber st idParam r x Hid Hfind Hst). simpl fst. simpl snd.
  assert (Hk : timers (actionAfterDelay (SetActive r)
                         (update r (set_status STATUS_RESTARTING) st))
               !! length (timers st) = Some (SetActive r)).
  { simpl. apply list_lookup_middle. reflexivity. }
  assert (Hfire : fire (length (timers st))
                    (actionAfterDelay (SetActive r)
                       (update r (set_status STATUS_RESTARTING) st))
                  = update r (set_status STATUS_ACTIVE) st).
  { unfold fire. rewrite Hk. unfold run_callback, update, actionAfterDelay.
    cbn [nextId heap sensors timers].
    rewrite delete_middle, app_nil_r, list_alter_alter_eq. reflexivity. }
  split; [reflexivity |]. split.
  { simpl. rewrite list_lookup_alter_eq, Hx. reflexivity. }
  split; [exact Hk |]. split; [exact Hfire |].
  rewrite Hfire. simpl. rewrite list_lookup_alter_eq, Hx. reflexivity.
Qed.

End Lookup.

(** ** What runs of the process keep *)

Section Runs.

Variable ToNumber : string -> number.
Variable o : Options.

(** What an event does to the sensor objects: none is dropped or moved,
    none changes its id or its frequency, and at most one is added, at the
    end, with the value of the id counter, which then moves on by one. *)
Lemma step_objects (st : State) (e : Event) :
  let st' := step ToNumber o st e in
  (forall r x, heap st !! r = Some x ->
     exists x', heap st' !! r = Some x' /\ id x' = id x /\ frequency x' = frequency x)
  /\ ((nextId st' = nextId st /\ length (heap st') = length (heap st))
      \/ (nextId st' = nextId st + 1
          /\ exists s, heap st' = heap st ++ [s] /\ id s = nextId st)).
Proof.
  destruct e as [rq dd roll | k | d | d]; cbv zeta.
  - pose proof (serve_state ToNumber o rq dd roll st) as H. cbv zeta in H.
    destruct H as [H | [(b & res & H) | (i & a & res & H)]]; rewrite H.
    + split; [eauto | left; auto].
    + pose proof (create_state st b res) as Hc. cbv zeta in Hc.
      destruct Hc as [Hc | Hc]; rewrite Hc; [split; [eauto | left; auto] |].
      simpl. split.
      * intros r x Hx. exists x.
        rewrite lookup_app_l by (eapply lookup_lt_Some, Hx). auto.
      * right. split; [reflexivity |]. eexists. split; reflexivity.
    + pose proof (change_state ToNumber st i a res) as Hc. cbv zeta in Hc.
      destruct Hc as [Hc | (r' & x' & c & s & _ & _ & _ & Hc)]; rewrite Hc;
        [split; [eauto | left; auto] |].
      simpl. split; [| left; split; [reflexivity | apply length_alter]].
      intros r x Hx. destruct (decide (r' = r)) as [-> | Hne].
      * exists (set_status s x). rewrite list_lookup_alter_eq, Hx. auto.
      * exists x. rewrite list_lookup_alter_ne by exact Hne. auto.
  - simpl. unfold fire. destruct (timers st !! k) as [[r' | r'] |]; simpl.
    + split; [| left; split; [reflexivity | apply length_alter]].
      intros r x Hx. destruct (decide (r' = r)) as [-> | Hne].
      * exists (set_status STATUS_ACTIVE x). rewrite list_lookup_alter_eq, Hx. auto.
      * exists x. rewrite list_lookup_alter_ne by exact Hne. auto.
    + split; [eauto | left; auto].
    + split; [eauto | left; auto].
  - simpl. split; [| left; split; [reflexivity | apply failures_loop_length]].
    intros r x Hx.
    destruct (failures_loop_spec o (sensors st) d (heap st) r x Hx) as (x' & Hx' & Hor).
    exists x'. split; [exact Hx' |]. destruct Hor as [-> | (_ & _ & ->)]; auto.
  - simpl. split; [| left; split; [reflexivity | apply measurements_loop_length]].
    intros r x Hx.
    destruct (measurements_loop_spec (sensors st) d (heap st) r x Hx)
      as (x' & Hx' & Hor & _).
    exists x'. split; [exact Hx' |]. destruct Hor as [-> | (_ & _ & k & ->)]; auto.
Qed.

(** X12.  Nothing ever changes the id or the frequency of a sensor: along
    every run, from any state, each sensor object keeps both, whatever is
    restarted, terminated, failed or measured in between. *)
Theorem id_and_frequency_never_change
    (evs : list Event) (st : State) (r : ref) (x : Sensor) :
  heap st !! r = Some x ->
  exists x', heap (run ToNumber o st evs) !! r = Some x'
    /\ id x' = id x /\ frequency x' = frequency x.
Proof.
  revert st x. induction evs as [| e evs IH]; intros st x Hx; [eauto |].
  destruct (proj1 (step_objects st e) r x Hx) as (x1 & Hx1 & Hid1 & Hf1).
  destruct (IH (step ToNumber o st e) x1 Hx1) as (x' & Hx' & Hid' & Hf').
  exists x'. split; [exact Hx' |]. split; congruence.
Qed.

Lemma step_Dense (st : State) (e : Event) : Dense st -> Dense (step ToNumber o st e).
Proof.
  intros [Hnext Hids].
  destruct (step_objects st e) as [Hkeep Hshape]. cbv zeta in Hkeep, Hshape.
  destruct Hshape as [[Hn Hlen] | (Hn & s & Hheap & Hs)]; split.
  - rewrite Hn, Hlen. exact Hnext.
  - intros i x' Hx'. pose proof (lookup_lt_Some _ _ _ Hx') as Hlt. rewrite Hlen in Hlt.
    destruct (lookup_lt_is_Some_2 _ _ Hlt) as [x Hx].
    destruct (Hkeep i x Hx) as (x'' & Hx'' & Hid & _).
    assert (x'' = x') by congruence. subst x''. rewrite Hid. apply Hids, Hx.
  - rewrite Hn, Hheap, length_app. simpl. lia.
  - intros i x' Hx'. rewrite Hheap in Hx'.
    apply lookup_snoc_Some in Hx' as [[_ Hx'] | [-> <-]]; [apply Hids, Hx' |].
    rewrite Hs. exact Hnext.
Qed.

Lemma Dense_initial : Dense initial.
Proof. split; [reflexivity |]. intros i x H. destruct i; discriminate H. Qed.

Lemma run_Dense (evs : list Event) (st : State) :
  Dense st -> Dense (run ToNumber o st evs).
Proof.
  revert st. induction evs as [| e evs IH]; intros st Hd; [exact Hd |].
  apply (IH (step ToNumber o st e)), step_Dense, Hd.
Qed.

(** X13.  Ids are handed out without gaps, starting at 1: in every
    reachable state the id counter is one more than the number of sensors
    created so far, and the sensor object at position [i] of the store,
    the [i + 1]-th created, carries the id [i + 1]; an event either leaves
    the counter and the number of objects alone or creates exactly one
    sensor with the counter's value, so requests that are rejected or
    stopped by the gate use up no id. *)
Theorem ids_consecutive (evs : list Event) (e : Event) :
  let st := run ToNumber o initial evs in
  nextId st = Z.of_nat (length (heap st)) + 1
  /\ (forall i x, heap st !! i = Some x -> id x = Z.of_nat i + 1)
  /\ ((nextId (step ToNumber o st e) = nextId st
       /\ length (heap (step ToNumber o st e)) = length (heap st))
      \/ (nextId (step ToNumber o st e) = nextId st + 1
          /\ exists s, heap (step ToNumber o st e) = heap st ++ [s]
                       /\ id s = nextId st)).
Proof.
  intros st.
  destruct (run_Dense evs initial Dense_initial) as [H1 H2]. fold st in H1, H2. split; [exact H1 |]. split; [exact H2 |].
  apply (step_objects st e).
Qed.

End Runs.

(** ** Activation, and the list of ids *)

Section Lifecycle.

Variable ToNumber : string -> number.
Variable o : Options.

(** A sensor that is INITIALIZING or RESTARTING is moved by nothing but
    a [SetActive] completion of its own. *)
Lemma step_transitional (st : State) (e : Event) (r : ref) (x : Sensor) :
  heap st !! r = Some x ->
  status x = STATUS_INITIALIZING \/ status x = STATUS_RESTARTING ->
  (forall k, e = TimerFires k -> timers st !! k = Some (SetActive r) ->
     heap (step ToNumber o st e) !! r = Some (set_status STATUS_ACTIVE x))
  /\ ((forall k, e = TimerFires k -> timers st !! k <> Some (SetActive r)) ->
      heap (step ToNumber o st e) !! r = Some x).
Proof.
  intros Hx Hst.
  assert (Hna : status x <> STATUS_ACTIVE) by (destruct Hst as [E | E]; rewrite E; discriminate).
  split.
  - intros k -> Hk. simpl. unfold fire. rewrite Hk. simpl.
    rewrite list_lookup_alter_eq, Hx. reflexivity.
  - intros Hother. destruct e as [rq dd roll | k | d | d].
    + pose proof (serve_state ToNumber o rq dd roll st) as H. cbv zeta in H.
      destruct H as [H | [(b & res & H) | (i & a & res & H)]]; rewrite H; [exact Hx | |].
      * pose proof (create_state st b res) as Hc. cbv zeta in Hc.
        destruct Hc as [Hc | Hc]; rewrite Hc; [exact Hx |]. simpl.
        rewrite lookup_app_l by (eapply lookup_lt_Some, Hx). exact Hx.
      * pose proof (change_state ToNumber st i a res) as Hc. cbv zeta in Hc.
        destruct Hc as [Hc | (r' & x' & c & s & Hf & Hacc & _ & Hc)]; rewrite Hc;
          [exact Hx |].
        apply find_by_id_Some in Hf as (_ & Hx' & _). simpl.
        rewrite list_lookup_alter_ne; [exact Hx |].
        intros ->. assert (x' = x) by congruence. subst x'.
        apply accepts_spec in Hacc. destruct Hst as [E | E]; rewrite E in Hacc;
          destruct Hacc; discriminate.
    + simpl. unfold fire. destruct (timers st !! k) as [[r' | r'] |] eqn:Hk;
        simpl; try exact Hx.
      rewrite list_lookup_alter_ne; [exact Hx |].
      intros ->. exact (Hother k eq_refl Hk).
    + simpl.
      destruct (failures_loop_spec o (sensors st) d (heap st) r x Hx)
        as (x' & Hx' & [-> | (Hact & _)]); [exact Hx' | contradiction].
    + simpl.
      destruct (measurements_loop_spec (sensors st) d (heap st) r x Hx)
        as (x' & Hx' & [-> | (Hact & _)] & _); [exact Hx' | contradiction].
Qed.

(** X14.  A sensor that is INITIALIZING or RESTARTING in a reachable state
    is in the array with exactly one completion pending; when that
    completion fires the sensor becomes ACTIVE, its other fields
    unchanged; and every other event, a request, another timer or a
    scheduler tick, leaves the sensor object exactly as it is. *)
Theorem transitional_until_completion
    (evs : list Event) (e : Event) (r : ref) (x : Sensor) :
  let st := run ToNumber o initial evs in
  heap st !! r = Some x ->
  status x = STATUS_INITIALIZING \/ status x = STATUS_RESTARTING ->
  r ∈ sensors st /\ pending r st = [SetActive r]
  /\ (exists k, timers st !! k = Some (SetActive r))
  /\ (forall k, e = TimerFires k -> timers st !! k = Some (SetActive r) ->
      heap (step ToNumber o st e) !! r = Some (set_status STATUS_ACTIVE x))
  /\ ((forall k, e = TimerFires k -> timers st !! k <> Some (SetActive r)) ->
      heap (step ToNumber o st e) !! r = Some x).
Proof.
  intros st Hx Hst.
  pose proof (reachable_Inv ToNumber o evs) as Hinv. fold st in Hinv.
  pose proof (inv_status st Hinv r x Hx) as Hcons.
  assert (Hc : r ∈ sensors st /\ pending r st = [SetActive r]).
  { destruct Hst as [E | E]; rewrite E in Hcons; exact Hcons. }
  destruct Hc as [Hin Hp].
  split; [exact Hin |]. split; [exact Hp |]. split.
  - assert (Hmem : SetActive r ∈ pending r st) by (rewrite Hp; apply list_elem_of_here).
    apply list_elem_of_filter in Hmem as [_ Hmem].
    apply list_elem_of_lookup in Hmem. exact Hmem.
  - apply step_transitional; assumption.
Qed.

(** Appending a newer sensor, or deleting one, keeps the array in the
    order of creation. *)
Lemma step_creation_order (st : State) (e : Event) :
  Inv st -> in_creation_order st -> in_creation_order (step ToNumber o st e).
Proof.
  intros Hinv Hord. destruct e as [rq dd roll | k | d | d]; [| | exact Hord | exact Hord].
  - pose proof (serve_state ToNumber o rq dd roll st) as H. cbv zeta in H.
    destruct H as [H | [(b & res & H) | (i & a & res & H)]]; rewrite H; [exact Hord | |].
    + pose proof (create_state st b res) as Hc. cbv zeta in Hc.
      destruct Hc as [Hc | Hc]; rewrite Hc; [exact Hord |].
      intros i j a b' Hi Hj Hij. simpl in Hi, Hj.
      apply lookup_snoc_Some in Hi as [[Hil Hi] | [Hil <-]];
        apply lookup_snoc_Some in Hj as [[Hjl Hj] | [Hjl <-]].
      * eapply Hord; eauto.
      * apply (inv_sensors st Hinv). apply list_elem_of_lookup. eauto.
      * lia.
      * lia.
    + pose proof (change_state ToNumber st i a res) as Hc. cbv zeta in Hc.
      destruct Hc as [Hc | (r' & x' & c & s & _ & _ & _ & Hc)]; rewrite Hc; exact Hord.
  - simpl. unfold fire. destruct (timers st !! k) as [[r | r] |] eqn:Hk;
      [exact Hord | | exact Hord].
    assert (Hc : SpliceOut r ∈ timers st) by (apply list_elem_of_lookup; eauto).
    pose proof (inv_timers st Hinv _ Hc) as Hlt. simpl in Hlt.
    destruct (lookup_lt_is_Some_2 _ _ Hlt) as [x Hx].
    destruct (consistent_SpliceOut _ _ _ (inv_status st Hinv r x Hx) Hc) as (_ & Hin & _).
    destruct (splice_out_present r st Hin) as (n & _ & Hdel).
    intros i j a b Hi Hj Hij.
    change (sensors (run_callback (SpliceOut r)
              {| nextId := nextId st; heap := heap st; sensors := sensors st;
                 timers := delete k (timers st) |}))
      with (sensors (run_callback (SpliceOut r) st)) in Hi, Hj.
    rewrite Hdel in Hi, Hj.
    destruct (le_lt_dec n i) as [Hni | Hni]; destruct (le_lt_dec n j) as [Hnj | Hnj].
    + rewrite list_lookup_delete_ge in Hi, Hj by lia. eapply (Hord (S i) (S j)); eauto. lia.
    + lia.
    + rewrite list_lookup_delete_lt in Hi by lia.
      rewrite list_lookup_delete_ge in Hj by lia. eapply (Hord i (S j)); eauto.
    + rewrite list_lookup_delete_lt in Hi, Hj by lia. eapply (Hord i j); eauto.
Qed.

Lemma run_creation_order (evs : list Event) (st : State) :
  Inv st -> in_creation_order st -> in_creation_order (run ToNumber o st evs).
Proof.
  revert st. induction evs as [| e evs IH]; intros st Hinv Hord; [exact Hord |].
  apply (IH (step ToNumber o st e)); [apply step_Inv, Hinv | apply step_creation_order; assumption].
Qed.

Lemma omap_lookup {A B} (f : A -> option B) (l : list A) (j : nat) :
  (forall a, a ∈ l -> is_Some (f a)) -> omap f l !! j = l !! j ≫= f.
Proof.
  revert j. induction l as [| a l IH]; intros j Hall; [reflexivity |].
  destruct (Hall a (list_elem_of_here _ _)) as [b Hb].
  cbn [omap list_omap]. rewrite Hb.
  destruct j as [| j]; simpl; [symmetry; exact Hb |].
  apply IH. intros a' Ha'. apply Hall, list_elem_of_further, Ha'.
Qed.

Lemma omap_total_length {A B} (f : A -> option B) (l : list A) :
  (forall a, a ∈ l -> is_Some (f a)) -> length (omap f l) = length l.
Proof.
  induction l as [| a l IH]; intros Hall; [reflexivity |].
  destruct (Hall a (list_elem_of_here _ _)) as [b Hb].
  cbn [omap list_omap]. rewrite Hb. simpl. f_equal.
  apply IH. intros a' Ha'. apply Hall, list_elem_of_further, Ha'.
Qed.

Lemma omap_pointwise {A B} (f g : A -> option B) (l : list A) :
  (forall a, f a = g a) -> omap f l = omap g l.
Proof.
  intros H. induction l as [| a l IH]; [reflexivity |].
  cbn [omap list_omap]. rewrite H, IH. reflexivity.
Qed.

(** X15.  In every reachable state the list of ids that [/sensor-ids]
    answers with has one id for each sensor of the array, in array order,
    and is strictly increasing: the sensors are listed in the order of
    their creation, no id occurs twice, and every id lies between 1 and
    the id counter. *)
Theorem sensor_ids_increasing (evs : list Event) :
  let st := run ToNumber o initial evs in
  getSensorIdsRoute st newResponse
  = res_json (VArr (map (fun i : Z => VNum i) (registered_ids st))) newResponse
  /\ length (registered_ids st) = length (sensors st)
  /\ (forall j a, registered_ids st !! j = Some a ->
        1 <= a < nextId st
        /\ exists r x, sensors st !! j = Some r /\ heap st !! r = Some x /\ id x = a)
  /\ (forall i j a b, registered_ids st !! i = Some a -> registered_ids st !! j = Some b ->
        (i < j)%nat -> a < b).
Proof.
  intros st.
  pose proof (reachable_Inv ToNumber o evs) as Hinv. fold st in Hinv.
  assert (Hord : in_creation_order st).
  { apply run_creation_order; [apply Inv_initial |].
    intros i j a b Hi. destruct i; discriminate Hi. }
  assert (Hsome : forall r, r ∈ sensors st -> is_Some (id <$> heap st !! r)).
  { intros r Hr. apply (inv_sensors st Hinv) in Hr.
    destruct (lookup_lt_is_Some_2 _ _ Hr) as [x Hx]. rewrite Hx. eexists; reflexivity. }
  assert (Hlook : forall j, registered_ids st !! j
                            = sensors st !! j ≫= (fun r => id <$> heap st !! r)).
  { intros j. apply omap_lookup, Hsome. }
  assert (Hget : forall j a, registered_ids st !! j = Some a ->
            exists r x, sensors st !! j = Some r /\ heap st !! r = Some x /\ id x = a).
  { intros j a Hj. rewrite Hlook in Hj.
    destruct (sensors st !! j) as [r |] eqn:Hr; simpl in Hj; [| discriminate].
    destruct (heap st !! r) as [x |] eqn:Hx; simpl in Hj; [| discriminate].
    injection Hj as <-. eauto. }
  split; [| split; [| split]].
  - unfold getSensorIdsRoute, registered_ids.
    change (map (fun i : Z => VNum i)) with (fmap (M := list) (fun i : Z => VNum i)).
    rewrite list_fmap_omap.
    f_equal. f_equal. apply omap_pointwise. intros r.
    destruct (heap st !! r); reflexivity.
  - apply omap_total_length, Hsome.
  - intros j a Hj. destruct (Hget j a Hj) as (r & x & Hr & Hx & <-).
    split; [| eauto]. pose proof (inv_next st Hinv r x Hx). lia.
  - intros i j a b Hi Hj Hij.
    destruct (Hget i a Hi) as (ri & xi & Hri & Hxi & <-).
    destruct (Hget j b Hj) as (rj & xj & Hrj & Hxj & <-).
    eapply (inv_order st Hinv); eauto.
Qed.

End Lifecycle.

(** ** The further properties on the scenario *)

(** A GET for the id 1 after sensor 1 was created and activated. *)
Lemma get_by_id_witness :
  getSensorRoute digits_ToNumber st_active "1" newResponse
  = res_json (sensor_json (sensor_one STATUS_ACTIVE)) newResponse.
Proof.
  destruct (get_by_id digits_ToNumber reliable
              [Serve create_request 0.5 0.5; TimerFires 0] "1") as (_ & H & _).
  apply (H 0%nat (sensor_one STATUS_ACTIVE)); [apply list_elem_of_here | reflexivity..].
Defined.

(** The first create of a run, then a GET for the id 1. *)
Lemma create_then_get_witness :
  getSensorRoute digits_ToNumber
    (fst (createSensorRoute initial (body create_request) newResponse)) "1" newResponse
  = snd (createSensorRoute initial (body create_request) newResponse).
Proof.
  apply (create_then_get digits_ToNumber reliable [] (body create_request) "1");
    reflexivity.
Defined.

(** A restart while the creation of sensor 1 is still pending. *)
Lemma pending_action_witness :
  changeSensorRoute digits_ToNumber st_created "1" "restart" newResponse
  = (st_created, error_reply 400 "sensor status is INITIALIZING").
Proof.
  destruct (pending_action_rejected digits_ToNumber reliable
              [Serve create_request 0.5 0.5] "1" "restart" 0%nat
              (sensor_one STATUS_INITIALIZING) eq_refl eq_refl) as (_ & H & _).
  apply H. discriminate.
Defined.

(** A restart of the ACTIVE sensor 1 and its completion. *)
Lemma restart_then_completion_witness :
  fire 0 (fst (changeSensorRoute digits_ToNumber st_active "1" ACTION_RESTART newResponse))
  = update 0%nat (set_status STATUS_ACTIVE) st_active.
Proof.
  destruct (restart_then_completion digits_ToNumber st_active "1" 0%nat
              (sensor_one STATUS_ACTIVE) eq_refl eq_refl (or_introl eq_refl))
    as (_ & _ & _ & H & _).
  exact H.
Defined.

(** Sensor 1 keeps its id and frequency through a restart and a
    measurement tick. *)
Lemma id_and_frequency_witness :
  exists x',
    heap (run digits_ToNumber reliable st_active
              [Serve (action_request "restart") 0.5 0.5; TimerFires 0;
               MeasurementTick two_draws]) !! 0%nat = Some x'
    /\ id x' = 1 /\ frequency x' = VNum (Fin 2).
Proof.
  apply (id_and_frequency_never_change digits_ToNumber reliable
           [Serve (action_request "restart") 0.5 0.5; TimerFires 0;
            MeasurementTick two_draws]
           st_active 0%nat (sensor_one STATUS_ACTIVE)).
  reflexivity.
Defined.

(** After two creates the counter is 3 and the second sensor has id 2. *)
Lemma ids_consecutive_witness :
  id (sensor_two STATUS_ACTIVE) = Z.of_nat 1 + 1.
Proof.
  destruct (ids_consecutive digits_ToNumber reliable
              [Serve create_request 0.5 0.5; Serve create_request 0.5 0.5;
               TimerFires 0; TimerFires 0] (TimerFires 0)) as (_ & H & _).
  apply (H 1%nat (sensor_two STATUS_ACTIVE)). reflexivity.
Defined.

(** The INITIALIZING sensor 1 becomes ACTIVE when its completion fires. *)
Lemma transitional_witness :
  heap (step digits_ToNumber reliable st_created (TimerFires 0)) !! 0%nat
  = Some (set_status STATUS_ACTIVE (sensor_one STATUS_INITIALIZING)).
Proof.
  destruct (transitional_until_completion digits_ToNumber reliable
              [Serve create_request 0.5 0.5] (TimerFires 0) 0%nat
              (sensor_one STATUS_INITIALIZING) eq_refl (or_introl eq_refl))
    as (_ & _ & _ & H & _).
  apply (H 0%nat); reflexivity.
Defined.

(** With two sensors registered the ids are listed as 1, 2. *)
Lemma sensor_ids_witness : (1 : Z) < 2.
Proof.
  destruct (sensor_ids_increasing digits_ToNumber reliable
              [Serve create_request 0.5 0.5; Serve create_request 0.5 0.5;
               TimerFires 0; TimerFires 0]) as (_ & _ & _ & H).
  apply (H 0%nat 1%nat 1 2); [reflexivity | reflexivity | lia].
Defined.

Example sensor_ids_two :
  getSensorIdsRoute st_two_active newResponse
  = res_json (VArr [VNum 1; VNum 2]) newResponse.
Proof. reflexivity. Qed.

(** ** Listing, then fetching *)

Section Listing.

Variable ToNumber : string -> number.
Variable o : Options.

Lemma registered_ids_lookup (st : State) (j : nat) (a : Z) :
  Inv st -> registered_ids st !! j = Some a ->
  exists r x, r ∈ sensors st /\ heap st !! r = Some x /\ id x = a.
Proof.
  intros Hinv Hj. unfold registered_ids in Hj. rewrite omap_lookup in Hj.
  - destruct (sensors st !! j) as [r |] eqn:Hr; simpl in Hj; [| discriminate].
    destruct (heap st !! r) as [x |] eqn:Hx; simpl in Hj; [| discriminate].
    injection Hj as <-. exists r, x. split; [| auto].
    apply list_elem_of_lookup. eauto.
  - intros r Hr. apply (inv_sensors st Hinv) in Hr.
    destruct (lookup_lt_is_Some_2 _ _ Hr) as [x Hx]. rewrite Hx. eexists; reflexivity.
Qed.

(** X16.  Every id that [/sensor-ids] lists can be fetched: in every
    reachable state, a GET whose id parameter converts to a listed id is
    answered 200 with a sensor of that id, namely the one sensor of the
    array that carries it. *)
Theorem listed_ids_can_be_fetched (evs : list Event) (j : nat) (a : Z) (idParam : string) :
  let st := run ToNumber o initial evs in
  registered_ids st !! j = Some a ->
  number_eqb a (ToNumber idParam) = true ->
  exists x,
    getSensorRoute ToNumber st idParam newResponse = res_json (sensor_json x) newResponse
    /\ id x = a
    /\ statusCode (getSensorRoute ToNumber st idParam newResponse) = 200
    /\ (forall r y, r ∈ sensors st -> heap st !! r = Some y -> id y = a -> y = x).
Proof.
  intros st Hj Hn.
  pose proof (reachable_Inv ToNumber o evs) as Hinv. fold st in Hinv.
  destruct (registered_ids_lookup st j a Hinv Hj) as (r & x & Hin & Hx & <-).
  exists x. unfold getSensorRoute.
  rewrite (registered_not_falsy st _ r x Hinv Hx Hn).
  rewrite (find_registered st _ r x Hinv Hin Hx Hn).
  split; [reflexivity |]. split; [reflexivity |]. split; [reflexivity |].
  intros r' y Hin' Hy Hid.
  assert (Hn' : number_eqb (id y) (ToNumber idParam) = true) by (rewrite Hid; exact Hn).
  pose proof (find_registered st _ r' y Hinv Hin' Hy Hn') as E.
  rewrite (find_registered st _ r x Hinv Hin Hx Hn) in E. congruence.
Qed.

End Listing.

(** The second listed id, fetched. *)
Lemma listed_ids_witness :
  exists x,
    getSensorRoute digits_ToNumber st_two_active "2" newResponse
    = res_json (sensor_json x) newResponse /\ id x = 2.
Proof.
  destruct (listed_ids_can_be_fetched digits_ToNumber reliable
              [Serve create_request 0.5 0.5; Serve create_request 0.5 0.5;
               TimerFires 0; TimerFires 0] 1%nat 2 "2" eq_refl eq_refl)
    as (x & H1 & H2 & _).
  exists x. split; assumption.
Defined.
